(** * Phone-Number-Validator: the [PhoneValidator] component

    A shallow embedding of [analyzePhoneNumber] (src/Projecttt.js, lines
    103-144) together with the two lookup tables it reads, [countryNames]
    and [carrierInfo].

    The component does no phone-number parsing of its own: it calls
    [isValidPhoneNumber] and [parsePhoneNumber] of the third-party package
    libphonenumber-js and [Math.random] of the JavaScript runtime.  Those
    are taken as they are seen from the component: an interface [PhoneLib]
    whose operations may return or throw, and the value of the one
    [Math.random()] call an analysis can make.

    Around it: the text the page shows of an analysis (lines 223-314),
    and the effect of lines 146-152 with the browser's timers, as a
    machine that takes the events of the page one at a time. *)

From Stdlib Require Import ZArith Floats Uint63 Ascii String.
From stdpp Require Import gmap strings list.

Local Open Scope Z_scope.

(** ** JavaScript strings

    A JavaScript string is a sequence of UTF-16 code units.  [js] reads an
    ASCII literal as such a sequence (one code unit per character). *)

Abbreviation jsstring := (list N).

Definition js (s : string) : jsstring :=
  (λ a, N_of_ascii a) <$> list_ascii_of_string s.

(** [WhiteSpace] and [LineTerminator] of ECMAScript, the code units that
    [String.prototype.trim] strips: TAB, LF, VT, FF, CR, SP, NBSP, the
    other space separators of Unicode, LS, PS and the byte order mark. *)
Definition isWhiteSpace (c : N) : bool :=
  (bool_decide (c ∈ [9; 10; 11; 12; 13; 32; 160; 5760; 8232; 8233; 8239; 8287; 12288; 65279])
   || ((8192 <=? c) && (c <=? 8202)))%N.

Fixpoint trimStart (s : jsstring) : jsstring :=
  match s with
  | c :: s' => if isWhiteSpace c then trimStart s' else s
  | [] => []
  end.

Definition trimEnd (s : jsstring) : jsstring := reverse (trimStart (reverse s)).

(** [number.trim()] *)
Definition trim (s : jsstring) : jsstring := trimEnd (trimStart s).

(** ToBoolean on a string: only the empty string is falsy. *)
Definition truthy (s : jsstring) : bool :=
  match s with [] => false | _ => true end.

(** [a || b] where [a] is a string or undefined and [b] a string. *)
Definition js_or (a : option jsstring) (b : jsstring) : jsstring :=
  match a with
  | Some s => if truthy s then s else b
  | None => b
  end.

(** [arr[i]] for a number [i] that is an integer: undefined out of range. *)
Definition array_get {A : Type} (arr : list A) (i : Z) : option A :=
  if bool_decide (0 ≤ i) then arr !! Z.to_nat i else None.

(** ** Numbers

    A JavaScript Number is an IEEE 754 binary64 value, here a primitive
    [float]; its arithmetic rounds as the program's does.

    [Math.floor(x)] as it is used for an index: the integer below a
    finite [x] (both zeros give 0), and nothing for a NaN or an
    infinity, at which no array has an element.  A finite double is
    [m * 2 ^ e] with a sign, so its floor is a shift of [m]. *)
Definition Math_floor (x : float) : option Z :=
  match Prim2SF x with
  | S754_zero _ => Some 0
  | S754_finite s m e => Some (Z.shiftl (if s then Z.neg m else Z.pos m) e)
  | _ => None
  end.

(** [arr.length], a Number (an array has fewer than [2 ^ 32] elements). *)
Definition length_number {A : Type} (arr : list A) : float :=
  of_uint63 (Uint63.of_Z (Z.of_nat (length arr))).

(** ** Completions: a call returns a value or throws *)

Record JsError := mkError { errName : jsstring; errMessage : jsstring }.

Inductive completion (A : Type) : Type :=
  | Normal (a : A)
  | Throw (e : JsError).
Arguments Normal {A} a.
Arguments Throw {A} e.

(** ** The lookup tables (lines 25-101) *)

Definition countryNamesEntries : list (jsstring * jsstring) :=
    [ (js "US", js "United States"); (js "CA", js "Canada");
      (js "GB", js "United Kingdom"); (js "AU", js "Australia");
      (js "DE", js "Germany"); (js "FR", js "France"); (js "IT", js "Italy");
      (js "ES", js "Spain"); (js "BR", js "Brazil"); (js "IN", js "India");
      (js "CN", js "China"); (js "JP", js "Japan"); (js "RU", js "Russia");
      (js "MX", js "Mexico"); (js "AR", js "Argentina"); (js "CL", js "Chile");
      (js "CO", js "Colombia"); (js "PE", js "Peru"); (js "VE", js "Venezuela");
      (js "ZA", js "South Africa"); (js "EG", js "Egypt"); (js "NG", js "Nigeria");
      (js "KE", js "Kenya"); (js "MA", js "Morocco"); (js "TN", js "Tunisia");
      (js "GH", js "Ghana"); (js "TR", js "Turkey"); (js "SA", js "Saudi Arabia");
      (js "AE", js "United Arab Emirates"); (js "IL", js "Israel");
      (js "KW", js "Kuwait"); (js "QA", js "Qatar"); (js "BH", js "Bahrain");
      (js "OM", js "Oman"); (js "JO", js "Jordan"); (js "LB", js "Lebanon");
      (js "SY", js "Syria"); (js "IQ", js "Iraq"); (js "IR", js "Iran");
      (js "AF", js "Afghanistan"); (js "PK", js "Pakistan");
      (js "BD", js "Bangladesh"); (js "LK", js "Sri Lanka"); (js "NP", js "Nepal");
      (js "BT", js "Bhutan"); (js "MV", js "Maldives"); (js "TH", js "Thailand");
      (js "VN", js "Vietnam"); (js "KH", js "Cambodia"); (js "LA", js "Laos");
      (js "MM", js "Myanmar"); (js "MY", js "Malaysia"); (js "SG", js "Singapore");
      (js "ID", js "Indonesia"); (js "PH", js "Philippines");
      (js "KR", js "South Korea"); (js "TW", js "Taiwan"); (js "HK", js "Hong Kong");
      (js "MO", js "Macau"); (js "MN", js "Mongolia"); (js "KZ", js "Kazakhstan");
      (js "UZ", js "Uzbekistan"); (js "TM", js "Turkmenistan");
      (js "KG", js "Kyrgyzstan"); (js "TJ", js "Tajikistan") ].

Definition countryNames : gmap jsstring jsstring :=
  list_to_map countryNamesEntries.

(** The o-acute of the third German carrier is the code unit U+00F3. *)
Definition carrierInfoEntries : list (jsstring * list jsstring) :=
    [ (js "US", [js "Verizon"; js "AT&T"; js "T-Mobile"; js "Sprint"]);
      (js "IN", [js "Airtel"; js "Jio"; js "Vi (Vodafone Idea)"; js "BSNL"]);
      (js "GB", [js "EE"; js "O2"; js "Three"; js "Vodafone"]);
      (js "DE", [js "Deutsche Telekom"; js "Vodafone";
                 js "Telef" ++ [243%N] ++ js "nica"]);
      (js "FR", [js "Orange"; js "SFR"; js "Bouygues"; js "Free"]);
      (js "CA", [js "Rogers"; js "Bell"; js "Telus"]);
      (js "AU", [js "Telstra"; js "Optus"; js "Vodafone"]) ].

Definition carrierInfo : gmap jsstring (list jsstring) :=
  list_to_map carrierInfoEntries.

(** The seven keys of [carrierInfo], as the object literal lists them. *)
Definition carrierCountries : list jsstring :=
  [js "US"; js "IN"; js "GB"; js "DE"; js "FR"; js "CA"; js "AU"].

(** ** The result type (lines 5-13)

    An optional field is [None] when the object has no such property or
    holds [undefined] there; the component reads its result only through
    truthiness tests and text interpolation, which do not tell the two
    apart. *)
Record PhoneInfo := mkPhoneInfo {
  isValid : bool;
  country : option jsstring;
  countryCode : option jsstring;
  region : option jsstring;
  nationalNumber : option jsstring;
  internationalFormat : option jsstring;
  carrier : option jsstring
}.

(** The object literal [{ isValid: false }] of lines 132-134 and 138-140. *)
Definition invalidInfo : PhoneInfo :=
  mkPhoneInfo false None None None None None None.

(** ** What the component sees of libphonenumber-js

    A [PhoneNumber] object offers [country] (undefined for a number that
    belongs to no single country), [nationalNumber] and the method
    [formatInternational()]; [country] has the package's type
    [CountryCode], a two-letter code, so a lookup in one of the tables
    above never reaches an inherited property.  The component passes no
    default country.  Every call into the package may throw. *)
Module PhoneNumber.
Record t := mk {
  country : option jsstring;
  nationalNumber : jsstring;
  formatInternational : completion jsstring
}.
End PhoneNumber.

Record PhoneLib := mkPhoneLib {
  isValidPhoneNumber : jsstring → completion bool;
  parsePhoneNumber : jsstring → completion (option PhoneNumber.t)
}.

(** ** Component state and the statement monad

    [phoneInfo] and [isAnalyzing] are the two React state cells the
    analysis writes; [console] collects what [console.error] received.
    A statement maps a world to the world it leaves and its completion:
    what was written before a throw stays written. *)
Record World := mkWorld {
  phoneInfo : option PhoneInfo;
  isAnalyzing : bool;
  console : list JsError
}.

Definition M (A : Type) : Type := World → World * completion A.

Definition ret {A} (a : A) : M A := λ w, (w, Normal a).

Definition bind {A B} (m : M A) (k : A → M B) : M B :=
  λ w, match m w with
       | (w', Normal a) => k a w'
       | (w', Throw e) => (w', Throw e)
       end.

Notation "'let*' x ':=' m 'in' k" := (bind m (λ x, k))
  (at level 10, x name, m at level 100, k at level 200, only parsing).
Notation "m1 ;> m2" := (bind m1 (λ _, m2))
  (at level 100, m2 at level 200, right associativity, only parsing).

(** A call into the package: no effect on the world, may throw. *)
Definition call {A} (c : completion A) : M A := λ w, (w, c).

(** [try { body } catch (error) { handler }] *)
Definition try_catch {A} (body : M A) (handler : JsError → M A) : M A :=
  λ w, match body w with
       | (w', Throw e) => handler e w'
       | r => r
       end.

Definition setPhoneInfo (v : option PhoneInfo) : M unit :=
  λ w, (mkWorld v (isAnalyzing w) (console w), Normal tt).

Definition setIsAnalyzing (b : bool) : M unit :=
  λ w, (mkWorld (phoneInfo w) b (console w), Normal tt).

Definition console_error (e : JsError) : M unit :=
  λ w, (mkWorld (phoneInfo w) (isAnalyzing w) (console w ++ [e]), Normal tt).

(** What [setTimeout(callback, delay)] registers. *)
Record Timer := mkTimer { delay : Z; callback : M unit }.

(** ** [analyzePhoneNumber] (lines 103-144) *)

Section Analysis.

(** The package, and the value [Math.random()] returns when the analysis
    calls it: a double, which the language promises to be at least 0
    and below 1. *)
Variable lib : PhoneLib.
Variable Math_random : float.

(** line 118: [country ? countryNames[country] || country : undefined] *)
Definition countryNameOf (country : option jsstring) : option jsstring :=
  match country with
  | Some c => if truthy c then Some (js_or (countryNames !! c) c) else None
  | None => None
  end.

(** line 119: [country && carrierInfo[country] ? carrierInfo[country] : []] *)
Definition carriersOf (country : option jsstring) : list jsstring :=
  match country with
  | Some c =>
      if truthy c then
        match carrierInfo !! c with
        | Some l => l
        | None => []
        end
      else []
  | None => []
  end.

(** line 120: [Math.floor(Math.random() * carriers.length)] *)
Definition randomIndex (carriers : list jsstring) : option Z :=
  Math_floor (Math_random * length_number carriers).

(** line 120 *)
Definition randomCarrierOf (carriers : list jsstring) : option jsstring :=
  if bool_decide (0 < length carriers)%nat
  then randomIndex carriers ≫= array_get carriers
  else None.

(** lines 116-130: the branch taken when [isValid] is true.  In
    [parsed?.f] an undefined [parsed] gives undefined. *)
Definition validBranch (number : jsstring) : M unit :=
  let* parsed := call (parsePhoneNumber lib number) in
  let country := parsed ≫= PhoneNumber.country in
  let countryName := countryNameOf country in
  let carriers := carriersOf country in
  let randomCarrier := randomCarrierOf carriers in
  let* fmt := call (match parsed with
              | Some p => match PhoneNumber.formatInternational p with
                          | Normal s => Normal (Some s)
                          | Throw e => Throw e
                          end
              | None => Normal None
              end) in
  setPhoneInfo (Some {| isValid := true;
                        country := countryName;
                        countryCode := country;
                        region := countryName;
                        nationalNumber := PhoneNumber.nationalNumber <$> parsed;
                        internationalFormat := fmt;
                        carrier := randomCarrier |}).

(** lines 113-135: the body of the [try] block. *)
Definition tryBlock (number : jsstring) : M unit :=
  let* valid := call (isValidPhoneNumber lib number) in
  if valid : bool then validBranch number
  else setPhoneInfo (Some invalidInfo).

(** lines 136-141: the [catch] block. *)
Definition catchBlock (error : JsError) : M unit :=
  console_error error ;>
  setPhoneInfo (Some invalidInfo).

(** lines 111-143: the function handed to [setTimeout]. *)
Definition timeoutCallback (number : jsstring) : M unit :=
  try_catch (tryBlock number) catchBlock ;>
  setIsAnalyzing false.

(** lines 103-144.  The result is the timer registered, if any. *)
Definition analyzePhoneNumber (number : jsstring) : M (option Timer) :=
  if truthy (trim number) then
    setIsAnalyzing true ;>
    ret (Some {| delay := 800; callback := timeoutCallback number |})
  else
    setPhoneInfo None ;>
    ret None.

(** One analysis from call to completion: [analyzePhoneNumber], then
    the timer it registered fires with no other event in between. *)
Definition runAnalysis (number : jsstring) : M unit :=
  let* timer := analyzePhoneNumber number in
  match timer with
  | Some t => callback t
  | None => ret tt
  end.

End Analysis.

(** The result an analysis leaves in [phoneInfo]. *)
Definition resultOf (lib : PhoneLib) (r : float) (number : jsstring) (w : World)
  : option PhoneInfo :=
  phoneInfo (fst (runAnalysis lib r number w)).

(** The world of a freshly mounted component (lines 21-23). *)
Definition initialWorld : World := mkWorld None false [].

(** ** A stand-in for the package on the component's example numbers

    Lines 316-357 offer four example numbers and label them US, IN, UK
    and DE.  [exampleLib] accepts the three labelled IN, UK and DE,
    gives each the country of its label, the digits after the calling
    code as national number and the digit groups separated by spaces as
    international format, and rejects every other text without
    throwing.  The first example, "+1 555-123-4567", is among the
    rejected: its exchange code 123 starts with a 1, which the North
    American plan does not allow, and the package does not accept it.
    [exampleLib] serves only to run the analysis on concrete inputs. *)
Definition exampleNumbers : list (jsstring * PhoneNumber.t) :=
  [ (js "+91 98765 43210",
     PhoneNumber.mk (Some (js "IN")) (js "9876543210") (Normal (js "+91 98765 43210")));
    (js "+44 20 7946 0958",
     PhoneNumber.mk (Some (js "GB")) (js "2079460958") (Normal (js "+44 20 7946 0958")));
    (js "+49 30 12345678",
     PhoneNumber.mk (Some (js "DE")) (js "3012345678") (Normal (js "+49 30 12345678"))) ].

Definition exampleLib : PhoneLib :=
  {| isValidPhoneNumber n :=
       Normal (bool_decide (is_Some (list_to_map (M := gmap jsstring PhoneNumber.t) exampleNumbers !! n)));
     parsePhoneNumber n :=
       Normal (list_to_map (M := gmap jsstring PhoneNumber.t) exampleNumbers !! n) |}.

(** A package whose validator throws on every input. *)
Definition throwingLib : PhoneLib :=
  {| isValidPhoneNumber _ := Throw (mkError (js "ParseError") (js "NOT_A_NUMBER"));
     parsePhoneNumber _ := Throw (mkError (js "ParseError") (js "NOT_A_NUMBER")) |}.

(** ** The analysis in closed form

    [verdict] is what one analysis of a non-blank input writes: the
    result, and the error handed to [console.error] if one was caught. *)
Definition validInfo (r : float) (parsed : option PhoneNumber.t)
    (fmt : option jsstring) : PhoneInfo :=
  {| isValid := true;
     country := countryNameOf (parsed ≫= PhoneNumber.country);
     countryCode := parsed ≫= PhoneNumber.country;
     region := countryNameOf (parsed ≫= PhoneNumber.country);
     nationalNumber := PhoneNumber.nationalNumber <$> parsed;
     internationalFormat := fmt;
     carrier := randomCarrierOf r (carriersOf (parsed ≫= PhoneNumber.country)) |}.

Definition verdict (lib : PhoneLib) (r : float) (number : jsstring)
  : PhoneInfo * list JsError :=
  match isValidPhoneNumber lib number with
  | Throw e => (invalidInfo, [e])
  | Normal false => (invalidInfo, [])
  | Normal true =>
      match parsePhoneNumber lib number with
      | Throw e => (invalidInfo, [e])
      | Normal None => (validInfo r None None, [])
      | Normal (Some p) =>
          match PhoneNumber.formatInternational p with
          | Throw e => (invalidInfo, [e])
          | Normal s => (validInfo r (Some p) (Some s), [])
          end
      end
  end.

(** A result with its [carrier] field removed. *)
Definition withoutCarrier (i : PhoneInfo) : PhoneInfo :=
  {| isValid := isValid i;
     country := country i;
     countryCode := countryCode i;
     region := region i;
     nationalNumber := nationalNumber i;
     internationalFormat := internationalFormat i;
     carrier := None |}.

(** A call into the package throws [e] during the analysis of [number]:
    the validator does, or the parser does, or [formatInternational]. *)
Definition throwsInternally (lib : PhoneLib) (number : jsstring) (e : JsError) : Prop :=
  isValidPhoneNumber lib number = Throw e ∨
  (isValidPhoneNumber lib number = Normal true ∧
   (parsePhoneNumber lib number = Throw e ∨
    ∃ p, parsePhoneNumber lib number = Normal (Some p) ∧
         PhoneNumber.formatInternational p = Throw e)).

(** ** What the page shows of an analysis (lines 223-314)

    The text content of the two regions of the page that depend on the
    analysis, element by element in document order.  Class names, icons
    and the theme carry no text and are left out.  [{x}] and
    [{x && <.../>}] render nothing for an [x] that is undefined or the
    empty string. *)
Definition shown (x : option jsstring) : list jsstring :=
  match x with
  | Some s => if truthy s then [s] else []
  | None => []
  end.

(** lines 224-233: [{isAnalyzing && (...)}] *)
Definition renderLoading (w : World) : list jsstring :=
  if isAnalyzing w then [js "Analyzing phone number..."] else [].

(** lines 261-312: [{phoneInfo.isValid && (...)}] *)
Definition renderDetails (info : PhoneInfo) : list jsstring :=
  if isValid info then
    [js "Location"]
    ++ shown (country info)
    ++ ((λ c, js "(" ++ c ++ js ")") <$> shown (countryCode info))
    ++ ((λ f, js "International: " ++ f) <$> shown (internationalFormat info))
    ++ (shown (carrier info) ≫= λ c,
          [js "Carrier"; c; js "Estimated carrier information"])
  else [].

(** lines 237-314: [{phoneInfo && !isAnalyzing && (...)}] *)
Definition renderResults (w : World) : list jsstring :=
  match phoneInfo w with
  | Some info =>
      if negb (isAnalyzing w) then
        [if isValid info then js "Valid Phone Number" else js "Invalid Phone Number"]
        ++ renderDetails info
      else []
  | None => []
  end.

(** ** The component among the browser's timers (lines 21-23, 111, 143,
    146-152)

    [phoneNumber] is the third state cell; the browser keeps the active
    timers in the order they were registered.  A timer's task is either
    the function of lines 147-149, which holds the [phoneNumber] of the
    render that created it, or a function registered by
    [analyzePhoneNumber].  [debounceTimer] is the id held by the cleanup
    function of the last effect (line 151).  Time is in milliseconds
    since the component was mounted. *)
Inductive Task :=
  | Debounce (number : jsstring)
  | Callback (k : M unit).

Record TimerEntry := mkEntry { timerId : nat; due : Z; task : Task }.

Record App := mkApp {
  phoneNumber : jsstring;
  world : World;
  now : Z;
  nextTimerId : nat;
  timers : list TimerEntry;
  debounceTimer : nat
}.

(** [setTimeout(task, d)]: the id of the new timer is its result. *)
Definition setTimeout (t : Task) (d : Z) (a : App) : App * nat :=
  (mkApp (phoneNumber a) (world a) (now a) (S (nextTimerId a))
         (timers a ++ [mkEntry (nextTimerId a) (now a + d) t])
         (debounceTimer a),
   nextTimerId a).

(** [clearTimeout(id)] *)
Definition clearTimeout (id : nat) (a : App) : App :=
  mkApp (phoneNumber a) (world a) (now a) (nextTimerId a)
        (filter (λ e, timerId e ≠ id) (timers a))
        (debounceTimer a).

(** The timer the browser runs next: the one due first, and among
    those due together the one registered first. *)
Fixpoint earliest (l : list TimerEntry) : option TimerEntry :=
  match l with
  | [] => None
  | e :: l' =>
      match earliest l' with
      | Some e' => if bool_decide (due e' < due e) then Some e' else Some e
      | None => Some e
      end
  end.

(** The first render and its effect (lines 21-23 and 146-152). *)
Definition mounted : App :=
  let '(a, id) := setTimeout (Debounce []) 300 (mkApp [] initialWorld 0 0 [] 0) in
  mkApp (phoneNumber a) (world a) (now a) (nextTimerId a) (timers a) id.

(** What happens to the component: the field's text is set (typing, or
    one of the example buttons of lines 324-355), time passes, or the
    browser runs the next timer. *)
Inductive Event :=
  | Change (v : jsstring)
  | Elapse (d : Z)
  | Fire.

Section EventLoop.

(** The package, and for each timer id the value [Math.random()] returns
    to the analysis registered under that id. *)
Variable lib : PhoneLib.
Variable Math_random_at : nat → float.

(** [setPhoneNumber(v)], the render it causes and the effect of lines
    146-152, run as one step: a value equal to the current one causes
    no render; otherwise the cleanup of the previous effect clears its
    timer and the effect registers a new one for [v]. *)
Definition setPhoneNumber (v : jsstring) (a : App) : App :=
  if bool_decide (v = phoneNumber a) then a
  else
    let a1 := clearTimeout (debounceTimer a)
                (mkApp v (world a) (now a) (nextTimerId a) (timers a)
                       (debounceTimer a)) in
    let '(a2, id) := setTimeout (Debounce v) 300 a1 in
    mkApp (phoneNumber a2) (world a2) (now a2) (nextTimerId a2) (timers a2) id.

(** Running a timer's task.  The function of lines 147-149 calls
    [analyzePhoneNumber], which may register a timer of its own. *)
Definition runTask (t : Task) (a : App) : App :=
  match t with
  | Debounce number =>
      match analyzePhoneNumber lib (Math_random_at (nextTimerId a)) number (world a) with
      | (w', Normal (Some tm)) =>
          fst (setTimeout (Callback (callback tm)) (delay tm)
                 (mkApp (phoneNumber a) w' (now a) (nextTimerId a) (timers a)
                        (debounceTimer a)))
      | (w', _) =>
          mkApp (phoneNumber a) w' (now a) (nextTimerId a) (timers a)
                (debounceTimer a)
      end
  | Callback k =>
      mkApp (phoneNumber a) (fst (k (world a))) (now a) (nextTimerId a)
            (timers a) (debounceTimer a)
  end.

(** The browser runs the next timer, once it is due; a timer may run
    late, never early. *)
Definition fire (a : App) : option App :=
  match earliest (timers a) with
  | Some e =>
      if bool_decide (due e ≤ now a)
      then Some (runTask (task e) (clearTimeout (timerId e) a))
      else None
  | None => None
  end.

Definition step (a : App) (ev : Event) : option App :=
  match ev with
  | Change v => Some (setPhoneNumber v a)
  | Elapse d =>
      if bool_decide (0 ≤ d)
      then Some (mkApp (phoneNumber a) (world a) (now a + d) (nextTimerId a)
                       (timers a) (debounceTimer a))
      else None
  | Fire => fire a
  end.

Fixpoint exec (a : App) (evs : list Event) : option App :=
  match evs with
  | [] => Some a
  | ev :: evs' =>
      match step a ev with
      | Some a' => exec a' evs'
      | None => None
      end
  end.

End EventLoop.

(** A package that accepts every text and parses it as [p]. *)
Definition constLib (p : PhoneNumber.t) : PhoneLib :=
  {| isValidPhoneNumber _ := Normal true;
     parsePhoneNumber _ := Normal (Some p) |}.

(** A shift register [rec] of the rounding of [M]: its mantissa is
    [M] shifted right by [k], and its round bit is set only if at least
    half a unit of the last place kept was shifted out. *)
Definition shifted (M k : Z) (rec : shr_record) : Prop :=
  shr_m rec = M / 2 ^ k ∧
  (0 < k → shr_r rec = true → 2 ^ k ≤ 2 * (M mod 2 ^ k)).

(** What holds of the timers in every state the component reaches. *)
Record TimersOk (lib : PhoneLib) (a : App) : Prop := mkTimersOk {
  ids_distinct : NoDup (timerId <$> timers a);
  ids_below : ∀ e, e ∈ timers a → (timerId e < nextTimerId a)%nat;
  debounce_below : (debounceTimer a < nextTimerId a)%nat;
  debounce_current : ∀ e n, e ∈ timers a → task e = Debounce n →
    n = phoneNumber a ∧ timerId e = debounceTimer a;
  callback_shape : ∀ e k, e ∈ timers a → task e = Callback k →
    timerId e ≠ debounceTimer a ∧ due e ≤ now a + 800 ∧
    ∃ r n, k = timeoutCallback lib r n;
  callback_before_debounce : ∀ e d k n, e ∈ timers a → d ∈ timers a →
    task e = Callback k → task d = Debounce n → due e ≤ due d + 500;
  analyzing_pending : isAnalyzing (world a) = true →
    ∃ e k, e ∈ timers a ∧ task e = Callback k;
  current_last : (∀ e n, e ∈ timers a → task e ≠ Debounce n) →
    truthy (trim (phoneNumber a)) = true →
    (∃ l e r, timers a = l ++ [e] ∧
       task e = Callback (timeoutCallback lib r (phoneNumber a)) ∧
       ∀ e', e' ∈ l → due e' < due e) ∨
    (timers a = [] ∧ isAnalyzing (world a) = false ∧
     ∃ r, phoneInfo (world a) = Some (fst (verdict lib r (phoneNumber a))))
}.

(** * Properties *)

(** ** Blank input *)





(** ** The analysis agrees with its closed form *)

Lemma timeoutCallback_verdict lib r number w :
  timeoutCallback lib r number w =
    (mkWorld (Some (fst (verdict lib r number))) false
             (console w ++ snd (verdict lib r number)),
     Normal tt).
Proof.
  unfold timeoutCallback, try_catch, tryBlock, validBranch, catchBlock,
    verdict, bind, call, setPhoneInfo, setIsAnalyzing, console_error.
  destruct (isValidPhoneNumber lib number) as [[|]|e]; simpl;
    [| by rewrite app_nil_r | done].
  destruct (parsePhoneNumber lib number) as [[p|]|e]; simpl;
    [| by rewrite app_nil_r | done].
  destruct (PhoneNumber.formatInternational p) as [s|e]; simpl;
    [by rewrite app_nil_r | done].
Qed.

Lemma runAnalysis_blank lib r number w :
  truthy (trim number) = false →
  runAnalysis lib r number w = (mkWorld None (isAnalyzing w) (console w), Normal tt).
Proof.
  intros H. unfold runAnalysis, analyzePhoneNumber, bind. by rewrite H.
Qed.

Lemma runAnalysis_nonblank lib r number w :
  truthy (trim number) = true →
  runAnalysis lib r number w =
    (mkWorld (Some (fst (verdict lib r number))) false
             (console w ++ snd (verdict lib r number)),
     Normal tt).
Proof.
  intros H. unfold runAnalysis, analyzePhoneNumber, bind. rewrite H. simpl.
  by rewrite timeoutCallback_verdict.
Qed.

Lemma resultOf_blank lib r number w :
  truthy (trim number) = false → resultOf lib r number w = None.
Proof. intros H. unfold resultOf. by rewrite runAnalysis_blank. Qed.

Lemma resultOf_nonblank lib r number w :
  truthy (trim number) = true →
  resultOf lib r number w = Some (fst (verdict lib r number)).
Proof. intros H. unfold resultOf. by rewrite runAnalysis_nonblank. Qed.

(** No analysis raises: the [try] block encloses every call that can. *)
Lemma runAnalysis_normal lib r number w :
  snd (runAnalysis lib r number w) = Normal tt.
Proof.
  destruct (truthy (trim number)) eqn:H.
  - by rewrite runAnalysis_nonblank.
  - by rewrite runAnalysis_blank.
Qed.

(** The cases of [verdict]: what the validator, the parser and
    [formatInternational] each return or throw. *)
Ltac verdict_cases lib number :=
  unfold verdict;
  destruct (isValidPhoneNumber lib number) as [[|]|?]; simpl; try done;
  destruct (parsePhoneNumber lib number) as [[?|]|?]; simpl; try done;
  try match goal with
      | |- context [PhoneNumber.formatInternational ?p] =>
          destruct (PhoneNumber.formatInternational p); simpl; try done
      end.

(** An invalid verdict carries no field but [isValid]. *)
Lemma verdict_invalid lib r number :
  isValid (fst (verdict lib r number)) = false →
  fst (verdict lib r number) = invalidInfo.
Proof.
  by verdict_cases lib number.
Qed.

(** A valid verdict is a [validInfo] of what the package parsed. *)
Lemma verdict_valid lib r number :
  isValid (fst (verdict lib r number)) = true →
  ∃ parsed fmt,
    parsePhoneNumber lib number = Normal parsed ∧
    fst (verdict lib r number) = validInfo r parsed fmt.
Proof.
  verdict_cases lib number; eauto.
Qed.

(** ** The tables *)

Lemma countryNames_truthy (c n : jsstring) :
  countryNames !! c = Some n → truthy n = true.
Proof.
  intros H. apply elem_of_list_to_map_2 in H.
  assert (HF : Forall (λ p : jsstring * jsstring, truthy p.2 = true)
                 countryNamesEntries) by (repeat constructor).
  rewrite Forall_forall in HF. exact (HF _ H).
Qed.

(** [countryNames[c] || c] is the table's entry, or [c] without one. *)
Lemma js_or_countryNames (c : jsstring) :
  js_or (countryNames !! c) c = default c (countryNames !! c).
Proof.
  destruct (countryNames !! c) as [n|] eqn:Hn; simpl; [|done].
  by rewrite (countryNames_truthy _ _ Hn).
Qed.

Lemma countryNameOf_default (country : option jsstring) :
  countryNameOf country =
    match country with
    | Some c => if truthy c then Some (default c (countryNames !! c)) else None
    | None => None
    end.
Proof.
  destruct country as [c|]; [|reflexivity].
  unfold countryNameOf. by rewrite js_or_countryNames.
Qed.

(** The keys of [carrierInfo] are the seven listed countries. *)
Lemma carrierInfo_keys (c : jsstring) :
  is_Some (carrierInfo !! c) ↔ c ∈ carrierCountries.
Proof.
  rewrite <- elem_of_dom. unfold carrierInfo.
  rewrite dom_list_to_map_L, elem_of_list_to_set.
  reflexivity.
Qed.

(** No country's carrier list is empty. *)
Lemma carrierInfo_nonempty (c : jsstring) (l : list jsstring) :
  carrierInfo !! c = Some l → (0 < length l)%nat.
Proof.
  intros H. apply elem_of_list_to_map_2 in H.
  assert (HF : Forall (λ p : jsstring * list jsstring, (0 < length p.2)%nat)
                 carrierInfoEntries) by (repeat constructor; simpl; lia).
  rewrite Forall_forall in HF. exact (HF _ H).
Qed.

Lemma carriersOf_nonempty (country : option jsstring) :
  carriersOf country ≠ [] →
  ∃ c, country = Some c ∧ carrierInfo !! c = Some (carriersOf country).
Proof.
  destruct country as [c|]; simpl; [|done].
  destruct (truthy c); [|done].
  destruct (carrierInfo !! c) as [l|] eqn:Hl; [|done].
  eauto.
Qed.

(** ** Rounding: the floor of a rounded product *)

Lemma shifted_0 (M : Z) : shifted M 0 (Build_shr_record M false false).
Proof. split; simpl; [by rewrite Z.div_1_r | lia]. Qed.

Lemma shifted_shr_1 (M k : Z) (rec : shr_record) :
  0 ≤ M → 0 ≤ k → shifted M k rec → shifted M (k + 1) (shr_1 rec).
Proof.
  intros HM Hk [Hm _].
  assert (Hp : 0 < 2 ^ k) by (apply Z.pow_pos_nonneg; lia).
  assert (Hs : 2 ^ (k + 1) = 2 ^ k * 2) by (rewrite Z.pow_add_r by lia; reflexivity).
  assert (Hd : M / 2 ^ (k + 1) = M / 2 ^ k / 2)
    by (rewrite Hs, Z.div_div by lia; reflexivity).
  pose proof (Z.div_mod M (2 ^ k) ltac:(lia)) as Hdm.
  pose proof (Z.mod_pos_bound M (2 ^ k) Hp) as Hb.
  pose proof (Z.div_mod M (2 ^ (k + 1)) ltac:(lia)) as Hdm'.
  pose proof (Z.div_pos M (2 ^ k) HM Hp) as Hq.
  unfold shifted. rewrite Hd.
  destruct rec as [mm r s]. simpl in Hm. rewrite <- Hm in *.
  rewrite Hs in Hdm' |- *. rewrite <- Z.div_div, <- Hm in Hdm' by lia.
  destruct mm as [|[q|q|]|q]; simpl.
  - split; [done|]. intros _ [=].
  - assert (Z.pos q~1 / 2 = Z.pos q) as Hh
      by (rewrite Pos2Z.inj_xI; symmetry; apply Z.div_unique with 1; lia).
    rewrite Hh in *. split; [done|]. intros _ _. lia.
  - assert (Z.pos q~0 / 2 = Z.pos q) as Hh
      by (rewrite Pos2Z.inj_xO; symmetry; apply Z.div_unique with 0; lia).
    rewrite Hh in *. split; [done|]. intros _ [=].
  - change (1 / 2) with 0 in *. split; [done|]. intros _ _. lia.
  - lia.
Qed.

Lemma shifted_iter (M : Z) (p : positive) : ∀ (k : Z) (rec : shr_record),
  0 ≤ M → 0 ≤ k → shifted M k rec →
  shifted M (k + Z.pos p) (SpecFloat.iter_pos shr_1 p rec).
Proof.
  induction p as [p IH|p IH|]; intros k rec HM Hk H; simpl.
  - replace (k + Z.pos p~1) with (k + 1 + Z.pos p + Z.pos p) by lia.
    apply IH; [done|lia|]. apply IH; [done|lia|]. by apply shifted_shr_1.
  - replace (k + Z.pos p~0) with (k + Z.pos p + Z.pos p) by lia.
    apply IH; [done|lia|]. by apply IH.
  - by apply shifted_shr_1.
Qed.

Lemma shr_rounded (M E k : Z) :
  0 ≤ M →
  let rec := fst (shr (Build_shr_record M false false) E k) in
  let e' := snd (shr (Build_shr_record M false false) E k) in
  let m1 := round_nearest_even (shr_m rec) (loc_of_shr_record rec) in
  0 ≤ m1 ∧
  ((k ≤ 0 ∧ e' = E ∧ m1 = M) ∨
   (0 < k ∧ e' = E + k ∧ 2 * m1 * 2 ^ k ≤ 2 * M + 2 ^ k)).
Proof.
  intros HM. destruct k as [|p|p]; simpl.
  - split; [done|]. left. lia.
  - pose proof (shifted_iter M p 0 _ HM ltac:(lia) (shifted_0 M)) as [Hm Hr].
    rewrite Z.add_0_l in Hm, Hr.
    assert (Hp : 0 < 2 ^ Z.pos p) by (apply Z.pow_pos_nonneg; lia).
    pose proof (Z.div_mod M (2 ^ Z.pos p) ltac:(lia)) as Hdm.
    pose proof (Z.mod_pos_bound M (2 ^ Z.pos p) Hp) as Hb.
    pose proof (Z.div_pos M (2 ^ Z.pos p) HM Hp) as Hq.
    destruct (SpecFloat.iter_pos shr_1 p _) as [mm r s]. simpl in Hm, Hr.
    rewrite <- Hm in Hdm, Hq.
    assert (Hcases : 0 ≤ round_nearest_even mm (loc_of_shr_record (Build_shr_record mm r s)) ∧
              2 * round_nearest_even mm (loc_of_shr_record (Build_shr_record mm r s))
                * 2 ^ Z.pos p ≤ 2 * M + 2 ^ Z.pos p).
    { set (P := 2 ^ Z.pos p) in *. clearbody P.
      set (rem := M `mod` P) in *. clearbody rem.
      assert (Hmul : mm * P = M - rem) by lia.
      destruct r, s; simpl.
      - specialize (Hr ltac:(lia) eq_refl). split; [lia|].
        replace (2 * (mm + 1) * P) with (2 * (mm * P) + 2 * P) by ring. lia.
      - specialize (Hr ltac:(lia) eq_refl). destruct (Z.even mm); (split; [lia|]).
        + replace (2 * mm * P) with (2 * (mm * P)) by ring. lia.
        + replace (2 * (mm + 1) * P) with (2 * (mm * P) + 2 * P) by ring. lia.
      - split; [lia|]. replace (2 * mm * P) with (2 * (mm * P)) by ring. lia.
      - split; [lia|]. replace (2 * mm * P) with (2 * (mm * P)) by ring. lia. }
    destruct Hcases as [H0 H1]. split; [done|]. right. split; [lia|]. split; [done|]. done.
  - split; [done|]. left. lia.
Qed.

Lemma shr_truncated (m e k : Z) :
  0 ≤ m →
  let rec := fst (shr (Build_shr_record m false false) e k) in
  let e'' := snd (shr (Build_shr_record m false false) e k) in
  e ≤ e'' ∧ 0 ≤ shr_m rec ∧ shr_m rec * 2 ^ (e'' - e) ≤ m.
Proof.
  intros Hm. destruct k as [|p|p]; simpl.
  - rewrite Z.sub_diag. simpl. lia.
  - pose proof (shifted_iter m p 0 _ Hm ltac:(lia) (shifted_0 m)) as [Hs _].
    rewrite Z.add_0_l in Hs. rewrite Hs.
    replace (e + Z.pos p - e) with (Z.pos p) by lia.
    assert (Hp : 0 < 2 ^ Z.pos p) by (apply Z.pow_pos_nonneg; lia).
    pose proof (Z.div_pos m (2 ^ Z.pos p) Hm Hp).
    pose proof (Z.mul_div_le m (2 ^ Z.pos p) Hp). split; [lia|]. split; [done|]. lia.
  - rewrite Z.sub_diag. simpl. lia.
Qed.

(** The product of a mantissa, rounded to nearest: below a bound [B]
    whenever the exact product is below it by more than half a unit in
    the last place kept. *)
Lemma binary_round_aux_below (M E B : Z) :
  0 < M →
  M < B →
  (∀ k, 0 < k → k = fexp prec emax (Zdigits2 M + E) - E → 2 * M + 2 ^ k < 2 * B) →
  B ≤ 2 ^ (emax - prec + 1 - E) →
  match binary_round_aux prec emax false M E loc_Exact with
  | S754_zero _ => True
  | S754_finite s m e => s = false ∧ E ≤ e ∧ Z.pos m * 2 ^ (e - E) < B
  | _ => False
  end.
Proof.
  intros HM HB Hmargin Hover.
  unfold binary_round_aux, shr_fexp. cbn [shr_record_of_loc].
  set (k1 := fexp prec emax (Zdigits2 M + E) - E) in *.
  pose proof (shr_rounded M E k1 ltac:(lia)) as Hr. cbv zeta in Hr.
  destruct (shr (Build_shr_record M false false) E k1) as [rec1 e'].
  cbn [fst snd] in Hr.
  set (m1 := round_nearest_even (shr_m rec1) (loc_of_shr_record rec1)) in *.
  destruct Hr as [Hm1 Hr].
  assert (He' : E ≤ e' ∧ m1 * 2 ^ (e' - E) < B).
  { destruct Hr as [(_ & -> & ->) | (Hk & -> & Hle)].
    - rewrite Z.sub_diag. simpl. lia.
    - replace (E + k1 - E) with k1 by lia.
      specialize (Hmargin k1 Hk eq_refl). lia. }
  clear Hr. destruct He' as [He' Hlt].
  set (k2 := fexp prec emax (Zdigits2 m1 + e') - e').
  pose proof (shr_truncated m1 e' k2 Hm1) as Ht. cbv zeta in Ht.
  destruct (shr (Build_shr_record m1 false false) e' k2) as [rec2 e''].
  cbn [fst snd] in Ht. destruct Ht as (He'' & Hm2 & Hle2).
  assert (Hp1 : 0 < 2 ^ (e' - E)) by (apply Z.pow_pos_nonneg; lia).
  assert (Hsplit : 2 ^ (e'' - E) = 2 ^ (e'' - e') * 2 ^ (e' - E))
    by (rewrite <- Z.pow_add_r by lia; f_equal; lia).
  assert (Hfin : shr_m rec2 * 2 ^ (e'' - E) < B) by (rewrite Hsplit; nia).
  destruct (shr_m rec2) as [|m2|m2]; [done| |lia].
  destruct (Z.leb_spec e'' (emax - prec)) as [Hle|Hgt].
  - split; [done|]. split; [lia|]. done.
  - assert (2 ^ (emax - prec + 1 - E) ≤ 2 ^ (e'' - E))
      by (apply Z.pow_le_mono_r; lia).
    assert (0 < 2 ^ (e'' - E)) by (apply Z.pow_pos_nonneg; lia).
    nia.
Qed.

Lemma digits2_gt (p : positive) : Z.pos p < 2 ^ Z.pos (digits2_pos p).
Proof.
  induction p as [p IH|p IH|]; simpl digits2_pos;
    rewrite ?Pos2Z.inj_succ, ?Z.pow_succ_r by lia; lia.
Qed.

Lemma digits2_le (p : positive) : 2 ^ (Z.pos (digits2_pos p) - 1) ≤ Z.pos p.
Proof.
  induction p as [p IH|p IH|]; simpl digits2_pos; [| |done].
  - rewrite Pos2Z.inj_succ.
    replace (Z.succ (Z.pos (digits2_pos p)) - 1)
      with (Z.succ (Z.pos (digits2_pos p) - 1)) by lia.
    rewrite Z.pow_succ_r by lia. lia.
  - rewrite Pos2Z.inj_succ.
    replace (Z.succ (Z.pos (digits2_pos p)) - 1)
      with (Z.succ (Z.pos (digits2_pos p) - 1)) by lia.
    rewrite Z.pow_succ_r by lia. lia.
Qed.

(** A double at least 0 and below 1 is a zero or [m * 2 ^ e] with
    [m < 2 ^ 53 ≤ 2 ^ (- e)]. *)
Lemma unit_interval_float (r : float) :
  (0 <=? r)%float = true → (r <? 1)%float = true →
  (∃ s, Prim2SF r = S754_zero s) ∨
  (∃ m e, Prim2SF r = S754_finite false m e ∧
          -1074 ≤ e ≤ -53 ∧ Z.pos m < 2 ^ 53).
Proof.
  rewrite FloatAxioms.leb_spec, FloatAxioms.ltb_spec. intros H0 H1.
  pose proof (Prim2SF_valid r) as Hv.
  change (Prim2SF 0) with (S754_zero false) in H0.
  change (Prim2SF 1) with (S754_finite false 4503599627370496 (-52)) in H1.
  destruct (Prim2SF r) as [s|s| |s m e]; [by eauto | | done |].
  - destruct s; done.
  - right. destruct s; [done|]. exists m, e. split; [done|].
    unfold SpecFloat.valid_binary, bounded, canonical_mantissa, fexp in Hv.
    apply andb_prop in Hv as [Hc _]. apply Z.eqb_eq in Hc.
    change (SpecFloat.emin prec emax) with (-1074) in Hc.
    change prec with 53 in Hc.
    pose proof (digits2_gt m) as Hg. pose proof (digits2_le m) as Hl.
    unfold SFltb, SFcompare in H1.
    assert (Hd : Z.pos (digits2_pos m) ≤ 53) by lia.
    assert (Hm : Z.pos m < 2 ^ 53).
    { eapply Z.lt_le_trans; [exact Hg|]. apply Z.pow_le_mono_r; lia. }
    split; [|done]. split; [lia|].
    destruct (Z.compare_spec e (-52)) as [->|Hlt|Hgt]; [|lia|done].
    exfalso.
    assert (Z.pos (digits2_pos m) = 53) as Hd53 by lia.
    rewrite Hd53 in Hl. change (2 ^ (53 - 1)) with 4503599627370496 in Hl.
    rewrite Pos.compare_cont_spec in H1. simpl in H1.
    destruct (Pos.compare_spec m 4503599627370496) as [?|Hlt|?]; simpl in H1; try done.
    apply Pos2Z.pos_lt_pos in Hlt. clear - Hl Hlt. lia.
Qed.

(** Line 120 never leaves the array: for a double [r] at least 0 and
    below 1 and a double [y] that holds an integer [N] of at most 53
    bits, the floor of the rounded product [r * y] is an integer from 0
    to [N - 1]. *)
Lemma Math_floor_mul_range (r y : float) (c : positive) (ey N : Z) :
  Prim2SF y = S754_finite false c ey →
  ey ≤ 0 → Z.pos c = N * 2 ^ (- ey) → Z.pos c < 2 ^ 53 →
  (0 <=? r)%float = true → (r <? 1)%float = true →
  ∃ i, Math_floor (r * y) = Some i ∧ 0 ≤ i < N.
Proof.
  intros Hy Hey Hc Hc53 H0 H1.
  assert (Hpe : 0 < 2 ^ (- ey)) by (apply Z.pow_pos_nonneg; lia).
  assert (HN : 0 < N) by nia.
  unfold Math_floor. rewrite FloatAxioms.mul_spec, Hy.
  destruct (unit_interval_float r H0 H1) as [[s ->] | (m & e & -> & He & Hm)].
  { simpl. exists 0. split; [done | lia]. }
  unfold SF64mul, SFmul. cbn [xorb].
  rewrite Pos2Z.inj_mul.
  set (M := Z.pos m * Z.pos c). set (E := e + ey).
  assert (Hpow : 2 ^ 53 ≤ 2 ^ (- e)) by (apply Z.pow_le_mono_r; lia).
  assert (Hmargin1 : 1 ≤ 2 ^ (- e) - Z.pos m) by lia.
  set (B := Z.pos c * 2 ^ (- e)).
  assert (HM0 : 0 < M) by (unfold M; lia).
  assert (HMB : M < B) by (unfold M, B; nia).
  assert (Hmarg : ∀ k, 0 < k → k = fexp prec emax (Zdigits2 M + E) - E →
                       2 * M + 2 ^ k < 2 * B).
  { intros k Hk Hkdef.
    assert (H2c : 2 ^ k < 2 * Z.pos c).
    { unfold fexp in Hkdef. change (SpecFloat.emin prec emax) with (-1074) in Hkdef.
      change prec with 53 in Hkdef.
      destruct (Z.max_spec (Zdigits2 M + E - 53) (-1074)) as [[_ Hmax]|[_ Hmax]];
        rewrite Hmax in Hkdef.
      - assert (k ≤ - ey) by (unfold E in Hkdef; lia).
        assert (2 ^ k ≤ 2 ^ (- ey)) by (apply Z.pow_le_mono_r; lia).
        nia.
      - unfold M in Hkdef. simpl Zdigits2 in Hkdef.
        pose proof (digits2_le (m * c)) as Hl. rewrite Pos2Z.inj_mul in Hl.
        replace (Z.pos (digits2_pos (m * c)) - 1) with (k + 52) in Hl by lia.
        rewrite Z.pow_add_r in Hl by lia.
        change (2 ^ 52) with 4503599627370496 in Hl.
        change (2 ^ 53) with 9007199254740992 in Hm.
        assert (0 < 2 ^ k) by (apply Z.pow_pos_nonneg; lia).
        nia. }
    unfold M, B. nia. }
  assert (Hov : B ≤ 2 ^ (emax - prec + 1 - E)).
  { change (emax - prec + 1) with 972. unfold E, B.
    replace (972 - (e + ey)) with (53 + (- e) + (919 - ey)) by lia.
    rewrite !Z.pow_add_r by lia.
    assert (0 < 2 ^ (919 - ey)) by (apply Z.pow_pos_nonneg; lia).
    assert (0 < 2 ^ (- e)) by lia.
    nia. }
  pose proof (binary_round_aux_below M E B HM0 HMB Hmarg Hov) as Hres.
  destruct (binary_round_aux prec emax false M E loc_Exact) as [s|s| |s m2 e2];
    [exists 0; split; [done | lia] | done | done |].
  destruct Hres as (-> & HE & Hlt).
  exists (Z.shiftl (Z.pos m2) e2). split; [done|]. split.
  { apply Z.shiftl_nonneg. lia. }
  assert (HB : B = N * 2 ^ (- E)).
  { unfold B, E. rewrite Hc. replace (- (e + ey)) with (- ey + - e) by lia.
    rewrite Z.pow_add_r by lia. ring. }
  rewrite HB in Hlt.
  destruct (Z.le_gt_cases 0 e2) as [Hpos|Hneg].
  - rewrite Z.shiftl_mul_pow2 by done.
    replace (e2 - E) with (e2 + - E) in Hlt by lia.
    rewrite Z.pow_add_r in Hlt by (unfold E; lia).
    assert (0 < 2 ^ (- E)) by (apply Z.pow_pos_nonneg; unfold E; lia).
    nia.
  - rewrite <- (Z.opp_involutive e2), Z.shiftl_opp_r, Z.shiftr_div_pow2 by lia.
    assert (Hsp : 2 ^ (- E) = 2 ^ (- e2) * 2 ^ (e2 - E))
      by (rewrite <- Z.pow_add_r by lia; f_equal; lia).
    rewrite Hsp in Hlt.
    assert (0 < 2 ^ (e2 - E)) by (apply Z.pow_pos_nonneg; lia).
    assert (0 < 2 ^ (- e2)) by (apply Z.pow_pos_nonneg; lia).
    apply Z.div_lt_upper_bound; [done|]. nia.
Qed.

Lemma randomCarrierOf_nil (r : float) : randomCarrierOf r [] = None.
Proof. reflexivity. Qed.

Lemma randomCarrierOf_elem (r : float) (l : list jsstring) (x : jsstring) :
  randomCarrierOf r l = Some x → x ∈ l.
Proof.
  unfold randomCarrierOf, array_get.
  case_bool_decide; [|done].
  destruct (randomIndex r l) as [i|]; simpl; [|done].
  case_bool_decide; [|done].
  apply list_elem_of_lookup_2.
Qed.

(** Every carrier list has three or four names. *)
Lemma carrierInfo_lengths (c : jsstring) (l : list jsstring) :
  carrierInfo !! c = Some l → length l = 3%nat ∨ length l = 4%nat.
Proof.
  intros H. apply elem_of_list_to_map_2 in H.
  assert (HF : Forall (λ p : jsstring * list jsstring,
                         length p.2 = 3%nat ∨ length p.2 = 4%nat)
                 carrierInfoEntries) by (repeat constructor; simpl; lia).
  rewrite Forall_forall in HF. exact (HF _ H).
Qed.

(** For a draw in range the index is in range, so a carrier list of
    three or four names always yields one of them. *)
Lemma randomIndex_range (r : float) (l : list jsstring) :
  (0 <=? r)%float = true → (r <? 1)%float = true →
  length l = 3%nat ∨ length l = 4%nat →
  ∃ i, randomIndex r l = Some i ∧ 0 ≤ i < Z.of_nat (length l).
Proof.
  intros H0 H1 Hl. unfold randomIndex, length_number.
  destruct Hl as [-> | ->].
  - apply (Math_floor_mul_range r _ 6755399441055744 (-51) 3); done.
  - apply (Math_floor_mul_range r _ 4503599627370496 (-50) 4); done.
Qed.

(** The product is rounded before it is floored: three times the double
    nearest to 2/3 (0.6666666666666666) is the double 2, and three times
    the double nearest to 1/3 is the double 1, although both exact
    products are below. *)
Lemma randomIndex_rounded :
  randomIndex 0x1.5555555555555p-1 [js "Rogers"; js "Bell"; js "Telus"] = Some 2 ∧
  randomIndex 0x1.5555555555555p-2 [js "Rogers"; js "Bell"; js "Telus"] = Some 1.
Proof. split; by vm_compute. Qed.

Lemma randomCarrierOf_in_range (r : float) (l : list jsstring) :
  (0 <=? r)%float = true → (r <? 1)%float = true →
  length l = 3%nat ∨ length l = 4%nat →
  ∃ x, randomCarrierOf r l = Some x ∧ x ∈ l.
Proof.
  intros H0 H1 Hl.
  destruct (randomIndex_range r l H0 H1 Hl) as (i & Hi & Hlo & Hhi).
  unfold randomCarrierOf, array_get. rewrite Hi. simpl.
  rewrite !bool_decide_eq_true_2 by lia.
  destruct (lookup_lt_is_Some_2 l (Z.to_nat i)) as [x Hx]; [lia|].
  exists x. split; [done | by eapply list_elem_of_lookup_2].
Qed.

(** ** What depends on the random draw *)

Lemma verdict_withoutCarrier lib r1 r2 number :
  withoutCarrier (fst (verdict lib r1 number)) =
  withoutCarrier (fst (verdict lib r2 number)) ∧
  snd (verdict lib r1 number) = snd (verdict lib r2 number).
Proof.
  by verdict_cases lib number.
Qed.

Lemma verdict_carrier lib r number :
  carrier (fst (verdict lib r number)) =
  randomCarrierOf r (carriersOf (countryCode (fst (verdict lib r number)))).
Proof.
  by verdict_cases lib number.
Qed.

(** * The claims *)

(** C1, as stated, fails: two analyses of the example number
    "+49 30 12345678", a valid German number, that differ only in the
    value [Math.random()] returned (0 and 0.5) leave different results,
    one with carrier "Deutsche Telekom" ([0 * 3] is 0) and one with
    carrier "Vodafone" ([0.5 * 3] is 1.5, of floor 1). *)
Lemma C1_random_carrier_counterexample :
  carrier <$> resultOf exampleLib 0 (js "+49 30 12345678") initialWorld
    = Some (Some (js "Deutsche Telekom")) ∧
  carrier <$> resultOf exampleLib 0.5 (js "+49 30 12345678") initialWorld
    = Some (Some (js "Vodafone")) ∧
  resultOf exampleLib 0 (js "+49 30 12345678") initialWorld
    ≠ resultOf exampleLib 0.5 (js "+49 30 12345678") initialWorld.
Proof.
  split; [by vm_compute|]. split; [by vm_compute|].
  vm_compute. intros H. discriminate H.
Qed.

(** C1, amended: the analysis is deterministic in everything but the
    carrier.  Two analyses of the same input from the same state, whatever
    [Math.random()] returned to each ([r1], [r2]), complete alike, leave
    the same [isAnalyzing] and the same console, and leave results that
    agree on every field except [carrier]; the carrier of each result is
    [carriers[Math.floor(Math.random() * carriers.length)]] over the
    carrier list of the detected country, the only place the draw enters. *)
Theorem C1_deterministic_except_carrier
    (lib : PhoneLib) (r1 r2 : float) (number : jsstring) (w : World) :
  snd (runAnalysis lib r1 number w) = snd (runAnalysis lib r2 number w) ∧
  isAnalyzing (fst (runAnalysis lib r1 number w))
    = isAnalyzing (fst (runAnalysis lib r2 number w)) ∧
  console (fst (runAnalysis lib r1 number w))
    = console (fst (runAnalysis lib r2 number w)) ∧
  withoutCarrier <$> resultOf lib r1 number w
    = withoutCarrier <$> resultOf lib r2 number w ∧
  carrier <$> resultOf lib r1 number w
    = (λ i, randomCarrierOf r1 (carriersOf (countryCode i)))
        <$> resultOf lib r1 number w.
Proof.
  destruct (truthy (trim number)) eqn:Hb.
  - rewrite !resultOf_nonblank, !runAnalysis_nonblank by done. simpl.
    destruct (verdict_withoutCarrier lib r1 r2 number) as [-> ->].
    by rewrite <- verdict_carrier.
  - by rewrite !resultOf_blank, !runAnalysis_blank.
Qed.

(** C2: a number the validator judges invalid is a result, not an error.
    No analysis raises, whatever the input and whatever the package does;
    and for a non-blank input that [isValidPhoneNumber] rejects, the
    analysis leaves a result whose [isValid] is false.  (The component has
    no hard error at all, so none arises outside empty or unresolvable
    input.) *)
Theorem C2_invalid_number_is_a_result
    (lib : PhoneLib) (r : float) (number : jsstring) (w : World) :
  snd (runAnalysis lib r number w) = Normal tt ∧
  (truthy (trim number) = true →
   isValidPhoneNumber lib number = Normal false →
   isValid <$> resultOf lib r number w = Some false).
Proof.
  split; [apply runAnalysis_normal|].
  intros Hb Hv. rewrite resultOf_nonblank by done.
  unfold verdict. by rewrite Hv.
Qed.

Lemma C2_invalid_number_witness :
  isValid <$> resultOf exampleLib 0 (js "+1 000-000-0000") initialWorld = Some false.
Proof.
  apply (C2_invalid_number_is_a_result exampleLib 0 (js "+1 000-000-0000") initialWorld).
  - reflexivity.
  - vm_compute. reflexivity.
Defined.




(** C4, as stated, fails: the analysis of "12345" (no [+], no prefix,
    and the component never passes a default region) raises no error; it
    completes with the result [{ isValid: false }]. *)
Lemma C4_no_region_counterexample :
  (¬ ∃ e, snd (runAnalysis exampleLib 0 (js "12345") initialWorld) = Throw e) ∧
  resultOf exampleLib 0 (js "12345") initialWorld = Some invalidInfo.
Proof.
  split; [|by vm_compute].
  intros [e He]. vm_compute in He. discriminate He.
Qed.

(** C4, amended: an input without [+], without prefix and without default
    region does not make the analysis fail.  Every analysis completes
    without raising; when the validator rejects the non-blank input the
    result is [{ isValid: false }]; and when the validator throws, the
    error is caught, handed to [console.error], and the result is again
    [{ isValid: false }]. *)
Theorem C4_unresolvable_input_is_invalid
    (lib : PhoneLib) (r : float) (number : jsstring) (w : World) :
  snd (runAnalysis lib r number w) = Normal tt ∧
  (truthy (trim number) = true →
   (isValidPhoneNumber lib number = Normal false →
    runAnalysis lib r number w
      = (mkWorld (Some invalidInfo) false (console w), Normal tt)) ∧
   (∀ e, isValidPhoneNumber lib number = Throw e →
    runAnalysis lib r number w
      = (mkWorld (Some invalidInfo) false (console w ++ [e]), Normal tt))).
Proof.
  split; [apply runAnalysis_normal|].
  intros Hb. rewrite runAnalysis_nonblank by done. unfold verdict.
  split.
  - intros ->. simpl. by rewrite app_nil_r.
  - by intros e ->.
Qed.

Lemma C4_unresolvable_input_witness :
  runAnalysis exampleLib 0 (js "12345") initialWorld
    = (mkWorld (Some invalidInfo) false [], Normal tt) ∧
  runAnalysis throwingLib 0 (js "12345") initialWorld
    = (mkWorld (Some invalidInfo) false
         [mkError (js "ParseError") (js "NOT_A_NUMBER")], Normal tt).
Proof.
  split.
  - apply (C4_unresolvable_input_is_invalid exampleLib 0 (js "12345") initialWorld).
    + reflexivity.
    + vm_compute. reflexivity.
  - apply (C4_unresolvable_input_is_invalid throwingLib 0 (js "12345") initialWorld).
    + reflexivity.
    + reflexivity.
Defined.




(** C8: in every valid result, [carrier] is defined only if the detected
    country ([countryCode]) is one of the seven keys of [carrierInfo]
    (US, IN, GB, DE, FR, CA, AU); for a valid number of any other country,
    or of none, [carrier] is undefined. *)
Theorem C8_carrier_only_for_listed_countries
    (lib : PhoneLib) (r : float) (number : jsstring) (w : World) (info : PhoneInfo) :
  resultOf lib r number w = Some info →
  isValid info = true →
  (is_Some (carrier info) →
   ∃ c, countryCode info = Some c ∧ c ∈ carrierCountries) ∧
  (∀ c, countryCode info = Some c → c ∉ carrierCountries → carrier info = None) ∧
  (countryCode info = None → carrier info = None).
Proof.
  intros Hr _.
  assert (Hc : carrier info = randomCarrierOf r (carriersOf (countryCode info))).
  { destruct (truthy (trim number)) eqn:Hb.
    - rewrite resultOf_nonblank in Hr by done. injection Hr as <-.
      apply verdict_carrier.
    - by rewrite resultOf_blank in Hr. }
  rewrite Hc. split; [|split].
  - intros [x Hx].
    destruct (carriersOf_nonempty (countryCode info)) as (c & Hcc & Hl).
    { intros Hnil. rewrite Hnil in Hx. discriminate Hx. }
    exists c. split; [done|]. apply carrierInfo_keys. by eexists.
  - intros c Hcc Hnot. rewrite Hcc. simpl.
    destruct (truthy c); [|done].
    destruct (carrierInfo !! c) as [l|] eqn:Hl; [|done].
    exfalso. apply Hnot, carrierInfo_keys. by eexists.
  - by intros ->.
Qed.

Lemma C8_carrier_witness :
  (is_Some (Some (js "EE")) →
   ∃ c, Some (js "GB") = Some c ∧ c ∈ carrierCountries) ∧
  (∀ c, Some (js "GB") = Some c → c ∉ carrierCountries → Some (js "EE") = None) ∧
  (Some (js "GB") = None → Some (js "EE") = None).
Proof.
  apply (C8_carrier_only_for_listed_countries exampleLib 0 (js "+44 20 7946 0958")
           initialWorld
           (mkPhoneInfo true (Some (js "United Kingdom")) (Some (js "GB"))
              (Some (js "United Kingdom")) (Some (js "2079460958"))
              (Some (js "+44 20 7946 0958")) (Some (js "EE")))).
  - vm_compute. reflexivity.
  - reflexivity.
Defined.

(** C9: every result judged invalid carries [isValid = false] and nothing
    else: [country], [countryCode], [region], [nationalNumber],
    [internationalFormat] and [carrier] are all absent.  This includes the
    inputs on which a call into the package throws, whichever call it is:
    their result is the same bare [{ isValid: false }]. *)
Theorem C9_invalid_result_is_bare
    (lib : PhoneLib) (r : float) (number : jsstring) (w : World) :
  (∀ info, resultOf lib r number w = Some info →
           isValid info = false → info = invalidInfo) ∧
  (truthy (trim number) = true →
   ∀ e, throwsInternally lib number e →
        resultOf lib r number w = Some invalidInfo).
Proof.
  split.
  - intros info Hr Hi.
    destruct (truthy (trim number)) eqn:Hb.
    + rewrite resultOf_nonblank in Hr by done. injection Hr as <-.
      by apply verdict_invalid.
    + by rewrite resultOf_blank in Hr.
  - intros Hb e He. rewrite resultOf_nonblank by done. f_equal.
    unfold verdict.
    destruct He as [-> | [-> [-> | (p & -> & ->)]]]; done.
Qed.

Lemma C9_invalid_result_witness :
  resultOf throwingLib 0 (js "12345") initialWorld = Some invalidInfo ∧
  invalidInfo = invalidInfo.
Proof.
  split.
  - apply (C9_invalid_result_is_bare throwingLib 0 (js "12345") initialWorld)
      with (e := mkError (js "ParseError") (js "NOT_A_NUMBER")).
    + reflexivity.
    + left. reflexivity.
  - apply (C9_invalid_result_is_bare exampleLib 0 (js "+1 000-000-0000") initialWorld).
    + vm_compute. reflexivity.
    + reflexivity.
Defined.

(** C10: in every valid result the [region] field equals the [country]
    field, and both are the display name of the detected country code:
    the [countryNames] entry for it, or the raw code when the table has
    none (and both are undefined when no country was detected).  The
    result carries nothing finer than the country. *)
Theorem C10_region_is_country_name
    (lib : PhoneLib) (r : float) (number : jsstring) (w : World) (info : PhoneInfo) :
  resultOf lib r number w = Some info →
  isValid info = true →
  region info = country info ∧
  country info =
    match countryCode info with
    | Some c => if truthy c then Some (default c (countryNames !! c)) else None
    | None => None
    end.
Proof.
  intros Hr Hv.
  destruct (truthy (trim number)) eqn:Hb; [|by rewrite resultOf_blank in Hr].
  rewrite resultOf_nonblank in Hr by done. injection Hr as <-.
  destruct (verdict_valid lib r number Hv) as (parsed & fmt & _ & ->).
  split; [reflexivity|].
  change (countryNameOf (parsed ≫= PhoneNumber.country) =
          match parsed ≫= PhoneNumber.country with
          | Some c => if truthy c then Some (default c (countryNames !! c)) else None
          | None => None
          end).
  apply countryNameOf_default.
Qed.

Lemma C10_region_witness :
  Some (js "Germany") = Some (js "Germany") ∧
  Some (js "Germany") = Some (default (js "DE") (countryNames !! js "DE")).
Proof.
  apply (C10_region_is_country_name exampleLib 0.5 (js "+49 30 12345678")
           initialWorld
           (mkPhoneInfo true (Some (js "Germany")) (Some (js "DE"))
              (Some (js "Germany")) (Some (js "3012345678"))
              (Some (js "+49 30 12345678")) (Some (js "Vodafone")))).
  - vm_compute. reflexivity.
  - reflexivity.
Defined.

(** * Further properties of the component *)

(** What a valid result holds of the number is what the package parsed:
    for a non-blank input that the validator accepts and the parser
    returns as [p], whose [formatInternational()] returns [s], the result
    has [isValid = true], the country code and national number of [p] and
    the international format [s], unchanged. *)
Theorem valid_result_forwards_parse
    (lib : PhoneLib) (r : float) (number : jsstring) (w : World)
    (p : PhoneNumber.t) (s : jsstring) :
  truthy (trim number) = true →
  isValidPhoneNumber lib number = Normal true →
  parsePhoneNumber lib number = Normal (Some p) →
  PhoneNumber.formatInternational p = Normal s →
  ∃ info,
    resultOf lib r number w = Some info ∧
    isValid info = true ∧
    countryCode info = PhoneNumber.country p ∧
    nationalNumber info = Some (PhoneNumber.nationalNumber p) ∧
    internationalFormat info = Some s.
Proof.
  intros Hb Hv Hp Hf. exists (validInfo r (Some p) (Some s)).
  rewrite resultOf_nonblank by done. unfold verdict.
  by rewrite Hv, Hp, Hf.
Qed.

Lemma valid_result_forwards_parse_witness :
  ∃ info,
    resultOf exampleLib 0 (js "+91 98765 43210") initialWorld = Some info ∧
    isValid info = true ∧
    countryCode info = Some (js "IN") ∧
    nationalNumber info = Some (js "9876543210") ∧
    internationalFormat info = Some (js "+91 98765 43210").
Proof.
  apply (valid_result_forwards_parse exampleLib 0 (js "+91 98765 43210") initialWorld
           (PhoneNumber.mk (Some (js "IN")) (js "9876543210")
              (Normal (js "+91 98765 43210")))
           (js "+91 98765 43210")).
  - reflexivity.
  - vm_compute. reflexivity.
  - vm_compute. reflexivity.
  - reflexivity.
Defined.

(** For a draw in range (at least 0, below 1), a result whose country is
    one of the seven keys of [carrierInfo] always has a carrier, and it is
    one of the names the table lists for that country. *)
Theorem listed_country_gets_listed_carrier
    (lib : PhoneLib) (r : float) (number : jsstring) (w : World)
    (info : PhoneInfo) (c : jsstring) :
  (0 <=? r)%float = true → (r <? 1)%float = true →
  resultOf lib r number w = Some info →
  countryCode info = Some c →
  c ∈ carrierCountries →
  ∃ x l, carrier info = Some x ∧ carrierInfo !! c = Some l ∧ x ∈ l.
Proof.
  intros H0 H1 Hr Hc Hin.
  assert (Hcar : carrier info = randomCarrierOf r (carriersOf (countryCode info))).
  { destruct (truthy (trim number)) eqn:Hb.
    - rewrite resultOf_nonblank in Hr by done. injection Hr as <-.
      apply verdict_carrier.
    - by rewrite resultOf_blank in Hr. }
  destruct (proj2 (carrierInfo_keys c) Hin) as [l Hl].
  assert (Ht : truthy c = true).
  { destruct c; [|done]. vm_compute in Hl. discriminate Hl. }
  assert (Hcs : carriersOf (Some c) = l)
    by (unfold carriersOf; by rewrite Ht, Hl).
  destruct (randomCarrierOf_in_range r l H0 H1 (carrierInfo_lengths _ _ Hl))
    as (x & Hx & Hxl).
  exists x, l. by rewrite Hcar, Hc, Hcs.
Qed.

Lemma listed_country_gets_listed_carrier_witness :
  ∃ x l,
    Some (js "Vi (Vodafone Idea)") = Some x ∧
    carrierInfo !! js "IN" = Some l ∧ x ∈ l.
Proof.
  apply (listed_country_gets_listed_carrier exampleLib 0.5
           (js "+91 98765 43210") initialWorld
           (mkPhoneInfo true (Some (js "India")) (Some (js "IN"))
              (Some (js "India")) (Some (js "9876543210"))
              (Some (js "+91 98765 43210")) (Some (js "Vi (Vodafone Idea)")))
           (js "IN")).
  - reflexivity.
  - reflexivity.
  - vm_compute. reflexivity.
  - reflexivity.
  - unfold carrierCountries. right. left.
Defined.

(** * The component among the browser's timers *)

Lemma earliest_spec (l : list TimerEntry) (e : TimerEntry) :
  earliest l = Some e → e ∈ l ∧ ∀ e', e' ∈ l → due e ≤ due e'.
Proof.
  revert e. induction l as [|x l IH]; intros e; simpl; [done|].
  destruct (earliest l) as [e0|] eqn:He0.
  - destruct (IH e0 eq_refl) as [Hin Hmin].
    case_bool_decide as Hlt; intros [= <-].
    + split; [by right|]. intros e' [->|He']%elem_of_cons; [lia | by apply Hmin].
    + split; [by left|]. intros e' [->|He']%elem_of_cons; [lia|].
      specialize (Hmin e' He'). lia.
  - intros [= <-]. destruct l as [|y l]; [|simpl in He0; by destruct (earliest l); [case_bool_decide|]].
    split; [by left|]. by intros e' ->%list_elem_of_singleton.
Qed.

Lemma earliest_None (l : list TimerEntry) : earliest l = None → l = [].
Proof.
  destruct l as [|x l]; [done|]. simpl.
  destruct (earliest l); [by case_bool_decide | done].
Qed.

Lemma ids_distinct_eq (l : list TimerEntry) (x y : TimerEntry) :
  NoDup (timerId <$> l) → x ∈ l → y ∈ l → timerId x = timerId y → x = y.
Proof.
  induction l as [|z l IH]; simpl; [by intros _ ?%elem_of_nil|].
  intros [Hz Hl]%NoDup_cons [->|Hx]%elem_of_cons [->|Hy]%elem_of_cons Heq; auto.
  - exfalso. apply Hz. rewrite Heq. by apply list_elem_of_fmap_2.
  - exfalso. apply Hz. rewrite <- Heq. by apply list_elem_of_fmap_2.
Qed.

Lemma ids_distinct_filter (P : TimerEntry → Prop) `{!∀ e, Decision (P e)}
    (l : list TimerEntry) :
  NoDup (timerId <$> l) → NoDup (timerId <$> filter P l).
Proof.
  intros Hl. eapply sublist_NoDup; [exact Hl|].
  apply fmap_sublist, sublist_filter.
Qed.

Lemma ids_distinct_snoc (l : list TimerEntry) (e : TimerEntry) :
  NoDup (timerId <$> l) → (∀ e', e' ∈ l → timerId e' ≠ timerId e) →
  NoDup (timerId <$> l ++ [e]).
Proof.
  intros Hl Hne. rewrite fmap_app. apply NoDup_app. split; [done|]. split.
  - intros i (e' & -> & He')%list_elem_of_fmap Hi.
    apply list_elem_of_singleton in Hi. by apply (Hne e').
  - apply NoDup_singleton.
Qed.

Lemma analyzePhoneNumber_nonblank lib r number w :
  truthy (trim number) = true →
  analyzePhoneNumber lib r number w =
    (mkWorld (phoneInfo w) true (console w),
     Normal (Some (mkTimer 800 (timeoutCallback lib r number)))).
Proof. intros H. unfold analyzePhoneNumber, bind. by rewrite H. Qed.

Lemma analyzePhoneNumber_blank lib r number w :
  truthy (trim number) = false →
  analyzePhoneNumber lib r number w =
    (mkWorld None (isAnalyzing w) (console w), Normal None).
Proof. intros H. unfold analyzePhoneNumber, bind. by rewrite H. Qed.

Lemma mounted_ok lib : TimersOk lib mounted.
Proof.
  constructor; simpl.
  - apply NoDup_singleton.
  - intros e ->%list_elem_of_singleton. simpl. lia.
  - lia.
  - intros e n ->%list_elem_of_singleton [= <-]. done.
  - intros e k ->%list_elem_of_singleton. done.
  - intros e d k n ->%list_elem_of_singleton. done.
  - done.
  - done.
Qed.

Lemma setPhoneNumber_ok lib v a :
  TimersOk lib a → TimersOk lib (setPhoneNumber v a).
Proof.
  intros [Hnd Hlt Hdb Hcur Hcb Hord Han Hlast].
  unfold setPhoneNumber. case_bool_decide as Hv; [by constructor|].
  constructor; simpl.
  - apply ids_distinct_snoc; [by apply ids_distinct_filter|].
    intros e' [_ He']%list_elem_of_filter. simpl.
    specialize (Hlt e' He'). lia.
  - intros e [[_ He]%list_elem_of_filter | ->%list_elem_of_singleton]%elem_of_app.
    + specialize (Hlt e He). lia.
    + simpl. lia.
  - lia.
  - intros e n [[Hid He]%list_elem_of_filter | ->%list_elem_of_singleton]%elem_of_app Ht.
    + by destruct (Hcur e n He Ht) as [_ ?].
    + simpl in *. by injection Ht as <-.
  - intros e k [[Hid He]%list_elem_of_filter | ->%list_elem_of_singleton]%elem_of_app Ht;
      [|done].
    destruct (Hcb e k He Ht) as (? & ? & ?). specialize (Hlt e He).
    split; [lia|]. done.
  - intros e d k n
      [[_ He]%list_elem_of_filter | ->%list_elem_of_singleton]%elem_of_app
      [[Hid Hd]%list_elem_of_filter | ->%list_elem_of_singleton]%elem_of_app
      Hte Htd; try done.
    + by destruct (Hcur d n Hd Htd) as [_ ?].
    + simpl. destruct (Hcb e k He Hte) as (_ & ? & _). lia.
  - intros HA. destruct (Han HA) as (e & k & He & Ht).
    exists e, k. split; [|done]. apply elem_of_app. left.
    apply list_elem_of_filter. split; [|done].
    by destruct (Hcb e k He Ht) as (? & _).
  - intros Hno. exfalso.
    apply (Hno (mkEntry (nextTimerId a) (now a + 300) (Debounce v)) v); [|done].
    apply elem_of_app. right. by apply list_elem_of_singleton.
Qed.

Lemma elapse_ok lib a d :
  0 ≤ d → TimersOk lib a →
  TimersOk lib (mkApp (phoneNumber a) (world a) (now a + d) (nextTimerId a)
                      (timers a) (debounceTimer a)).
Proof.
  intros Hd [Hnd Hlt Hdb Hcur Hcb Hord Han Hlast].
  constructor; simpl; try done.
  intros e k He Ht. destruct (Hcb e k He Ht) as (? & ? & ?).
  split; [done|]. split; [lia | done].
Qed.

Lemma fire_ok lib rand a a' :
  TimersOk lib a → fire lib rand a = Some a' → TimersOk lib a'.
Proof.
  intros [Hnd Hlt Hdb Hcur Hcb Hord Han Hlast] Hfire.
  unfold fire in Hfire.
  destruct (earliest (timers a)) as [e|] eqn:He; [|done].
  case_bool_decide as Hdue; [|done]. injection Hfire as <-.
  destruct (earliest_spec _ _ He) as [Hin Hmin].
  assert (Hdeb : ∀ e' n', e' ∈ filter (λ x, timerId x ≠ timerId e) (timers a) →
                 task e' = Debounce n' → timerId e = debounceTimer a → False).
  { intros e' n' [Hid He']%list_elem_of_filter Ht' Hide.
    destruct (Hcur e' n' He' Ht') as [_ ?]. congruence. }
  destruct (task e) as [n|k] eqn:Ht.
  - destruct (Hcur e n Hin Ht) as [-> Hid].
    unfold runTask. simpl.
    destruct (truthy (trim (phoneNumber a))) eqn:Hb.
    + rewrite analyzePhoneNumber_nonblank by done. simpl.
      constructor; simpl.
      * apply ids_distinct_snoc; [by apply ids_distinct_filter|].
        intros e' [_ He']%list_elem_of_filter. simpl.
        specialize (Hlt e' He'). lia.
      * intros e' [[_ He']%list_elem_of_filter | ->%list_elem_of_singleton]%elem_of_app.
        -- specialize (Hlt e' He'). lia.
        -- simpl. lia.
      * lia.
      * intros e' n' [He' | ->%list_elem_of_singleton]%elem_of_app Ht'; [|done].
        exfalso. eauto.
      * intros e' k' [[Hid' He']%list_elem_of_filter | ->%list_elem_of_singleton]%elem_of_app Ht'.
        -- by apply Hcb.
        -- simpl in *. injection Ht' as <-. split; [lia|]. split; [lia|]. eauto.
      * intros e' d k' n' _ [Hd | ->%list_elem_of_singleton]%elem_of_app _ Htd; [|done].
        exfalso. eauto.
      * intros _. eexists _, _.
        split; [apply elem_of_app; right; by apply list_elem_of_singleton|].
        reflexivity.
      * intros _ _. left. eexists _, _, _. split; [reflexivity|]. split; [reflexivity|].
        intros e' [Hid' He']%list_elem_of_filter. simpl.
        destruct (task e') as [n'|k'] eqn:Ht'.
        -- destruct (Hcur e' n' He' Ht') as [_ ?]. congruence.
        -- specialize (Hord e' e k' _ He' Hin Ht' Ht). lia.
    + rewrite analyzePhoneNumber_blank by done. simpl.
      constructor; simpl.
      * by apply ids_distinct_filter.
      * intros e' [_ He']%list_elem_of_filter. by apply Hlt.
      * done.
      * intros e' n' He' Ht'. exfalso. eauto.
      * intros e' k' [_ He']%list_elem_of_filter Ht'. by apply Hcb.
      * intros e' d k' n' _ Hd _ Htd. exfalso. eauto.
      * intros HA. destruct (Han HA) as (e' & k' & He' & Ht').
        exists e', k'. split; [|done]. apply list_elem_of_filter. split; [|done].
        destruct (Hcb e' k' He' Ht') as (? & _). congruence.
      * intros _ Hb'. congruence.
  - destruct (Hcb e k Hin Ht) as (Hne & _ & r & n & ->).
    simpl. rewrite timeoutCallback_verdict. simpl.
    constructor; simpl.
    + by apply ids_distinct_filter.
    + intros e' [_ He']%list_elem_of_filter. by apply Hlt.
    + done.
    + intros e' n' [_ He']%list_elem_of_filter Ht'. by apply (Hcur e').
    + intros e' k' [_ He']%list_elem_of_filter Ht'. by apply Hcb.
    + intros e' d k' n' [_ He']%list_elem_of_filter [_ Hd]%list_elem_of_filter.
      by apply Hord.
    + done.
    + intros Hno Hb.
      assert (Hno' : ∀ e' n', e' ∈ timers a → task e' ≠ Debounce n').
      { intros e' n' He'. destruct (decide (timerId e' = timerId e)) as [Heq|Hneq].
        - rewrite (ids_distinct_eq _ _ _ Hnd He' Hin Heq), Ht. done.
        - apply Hno. by apply list_elem_of_filter. }
      destruct (Hlast Hno' Hb) as [(l & e1 & r1 & Hl & Ht1 & Hl1) | (Hnil & _)];
        [|rewrite Hnil in Hin; by apply elem_of_nil in Hin].
      assert (He1 : e1 ∈ timers a)
        by (rewrite Hl; apply elem_of_app; right; by apply list_elem_of_singleton).
      destruct (decide (timerId e = timerId e1)) as [Heq|Hneq].
      * pose proof (ids_distinct_eq _ _ _ Hnd Hin He1 Heq) as ->.
        right. destruct l as [|x l].
        -- rewrite Hl. simpl. rewrite filter_cons, filter_nil.
           destruct (decide _) as [?|_]; [done|].
           split; [done|]. split; [done|]. exists r1.
           rewrite Ht in Ht1. injection Ht1 as Hk.
           pose proof (f_equal (λ f, phoneInfo (fst (f initialWorld))) Hk) as Hw.
           simpl in Hw. by rewrite !timeoutCallback_verdict in Hw.
        -- exfalso. assert (Hx : x ∈ x :: l) by by left.
           specialize (Hl1 x Hx).
           assert (x ∈ timers a) as Hxa
             by (rewrite Hl; apply elem_of_app; by left).
           specialize (Hmin x Hxa). lia.
      * left. exists (filter (λ x, timerId x ≠ timerId e) l), e1, r1.
        split; [|split; [done|]].
        -- rewrite Hl, filter_app, filter_cons, filter_nil.
           destruct (decide _) as [_|Hc]; [done|]. exfalso. by apply Hc.
        -- intros e' [_ He']%list_elem_of_filter. by apply Hl1.
Qed.

Lemma step_ok lib rand a ev a' :
  TimersOk lib a → step lib rand a ev = Some a' → TimersOk lib a'.
Proof.
  intros Hok. destruct ev as [v|d|]; simpl.
  - intros [= <-]. by apply setPhoneNumber_ok.
  - case_bool_decide; [|done]. intros [= <-]. by apply elapse_ok.
  - by apply fire_ok.
Qed.

(** Every state the component reaches from its first render keeps the
    timers in order. *)
Lemma exec_ok lib rand (evs : list Event) : ∀ a a',
  TimersOk lib a → exec lib rand a evs = Some a' → TimersOk lib a'.
Proof.
  induction evs as [|ev evs IH]; intros a a' Hok; simpl.
  - by intros [= <-].
  - destruct (step lib rand a ev) as [a1|] eqn:Hs; [|done].
    apply IH. by eapply step_ok.
Qed.

Lemma nonblank_not_nil (n : jsstring) : truthy (trim n) = true → n ≠ [].
Proof. by intros H ->. Qed.

Lemma exec_step lib rand a ev a' evs :
  step lib rand a ev = Some a' →
  exec lib rand a (ev :: evs) = exec lib rand a' evs.
Proof. intros H. simpl. by rewrite H. Qed.

(** A result can outlive its text.  The field is set to a non-blank
    text [n]; its analysis starts after 300 ms; the field is emptied
    less than 500 ms later; every timer then runs the moment it is due.
    The analysis of the empty text resets [phoneInfo] first, and the
    callback of [n], which nothing cancels, writes its result after it:
    in the end the field is empty, no timer is left, and the page shows
    the result of [n]. *)
Theorem cleared_field_shows_stale_result
    (lib : PhoneLib) (rand : nat → float) (n : jsstring) (d : Z) :
  truthy (trim n) = true →
  0 ≤ d < 500 →
  ∃ a,
    exec lib rand mounted
      [Change n; Elapse 300; Fire; Elapse d; Change []; Elapse 300; Fire;
       Elapse (500 - d); Fire] = Some a ∧
    phoneNumber a = [] ∧
    timers a = [] ∧
    renderLoading (world a) = [] ∧
    phoneInfo (world a) = resultOf lib (rand 2%nat) n initialWorld ∧
    renderResults (world a)
      = renderResults (fst (runAnalysis lib (rand 2%nat) n initialWorld)).
Proof.
  intros Hb Hd. pose proof (nonblank_not_nil n Hb) as Hn.
  set (cb := Callback (timeoutCallback lib (rand 2%nat) n)).
  set (w1 := mkWorld None true []).
  exists (mkApp [] (fst (timeoutCallback lib (rand 2%nat) n w1))
                (300 + d + 300 + (500 - d)) 4 [] 3).
  split.
  - rewrite (exec_step _ _ _ _ (mkApp n initialWorld 0 2 [mkEntry 1 300 (Debounce n)] 1)).
    2:{ cbn [step]. unfold setPhoneNumber. cbn [phoneNumber mounted].
        by rewrite bool_decide_eq_false_2. }
    rewrite (exec_step _ _ _ _ (mkApp n initialWorld 300 2 [mkEntry 1 300 (Debounce n)] 1))
      by reflexivity.
    rewrite (exec_step _ _ _ _ (mkApp n w1 300 3 [mkEntry 2 1100 cb] 1)).
    2:{ cbn [step]. unfold fire. cbn -[analyzePhoneNumber].
        by rewrite analyzePhoneNumber_nonblank. }
    rewrite (exec_step _ _ _ _ (mkApp n w1 (300 + d) 3 [mkEntry 2 1100 cb] 1)).
    2:{ cbn [step]. by rewrite bool_decide_eq_true_2 by lia. }
    rewrite (exec_step _ _ _ _
               (mkApp [] w1 (300 + d) 4
                  [mkEntry 2 1100 cb; mkEntry 3 (300 + d + 300) (Debounce [])] 3)).
    2:{ cbn [step]. unfold setPhoneNumber. cbn [phoneNumber].
        by rewrite bool_decide_eq_false_2. }
    rewrite (exec_step _ _ _ _
               (mkApp [] w1 (300 + d + 300) 4
                  [mkEntry 2 1100 cb; mkEntry 3 (300 + d + 300) (Debounce [])] 3))
      by reflexivity.
    rewrite (exec_step _ _ _ _ (mkApp [] w1 (300 + d + 300) 4 [mkEntry 2 1100 cb] 3)).
    2:{ cbn [step]. unfold fire. cbn [timers earliest due].
        rewrite (bool_decide_eq_true_2 (300 + d + 300 < 1100)) by lia.
        cbn [due now]. rewrite bool_decide_eq_true_2 by lia.
        reflexivity. }
    rewrite (exec_step _ _ _ _
               (mkApp [] w1 (300 + d + 300 + (500 - d)) 4 [mkEntry 2 1100 cb] 3)).
    2:{ cbn [step]. by rewrite bool_decide_eq_true_2 by lia. }
    rewrite (exec_step _ _ _ _
               (mkApp [] (fst (timeoutCallback lib (rand 2%nat) n w1))
                  (300 + d + 300 + (500 - d)) 4 [] 3)).
    2:{ cbn [step]. unfold fire. cbn [timers earliest due now].
        rewrite bool_decide_eq_true_2 by lia. reflexivity. }
    reflexivity.
  - cbn [phoneNumber timers world].
    rewrite timeoutCallback_verdict, resultOf_nonblank, runAnalysis_nonblank by done.
    done.
Qed.

Lemma cleared_field_shows_stale_result_witness :
  ∃ a,
    exec exampleLib (λ _, 0%float) mounted
      [Change (js "+49 30 12345678"); Elapse 300; Fire; Elapse 100; Change [];
       Elapse 300; Fire; Elapse (500 - 100); Fire] = Some a ∧
    phoneNumber a = [] ∧
    timers a = [] ∧
    renderLoading (world a) = [] ∧
    phoneInfo (world a)
      = resultOf exampleLib 0 (js "+49 30 12345678") initialWorld ∧
    renderResults (world a)
      = renderResults (fst (runAnalysis exampleLib 0 (js "+49 30 12345678")
                              initialWorld)).
Proof.
  apply (cleared_field_shows_stale_result exampleLib (λ _, 0%float)
           (js "+49 30 12345678") 100).
  - reflexivity.
  - lia.
Defined.

(** In every state the component reaches, a pending timer of the
    effect (lines 146-152) holds the text that is in the field now, and
    there is at most one such timer: a text replaced before its 300 ms
    have passed is never handed to [analyzePhoneNumber]. *)
Theorem debounce_timer_holds_current_text
    (lib : PhoneLib) (rand : nat → float) (evs : list Event) (a : App)
    (e : TimerEntry) (n : jsstring) :
  exec lib rand mounted evs = Some a →
  e ∈ timers a →
  task e = Debounce n →
  n = phoneNumber a ∧
  ∀ e' n', e' ∈ timers a → task e' = Debounce n' → e' = e.
Proof.
  intros Hex He Ht.
  pose proof (exec_ok lib rand evs _ _ (mounted_ok lib) Hex) as Hok.
  destruct (debounce_current lib a Hok e n He Ht) as [-> Hid].
  split; [done|]. intros e' n' He' Ht'.
  destruct (debounce_current lib a Hok e' n' He' Ht') as [_ Hid'].
  apply (ids_distinct_eq (timers a)); [apply Hok | done | done | congruence].
Qed.

Lemma debounce_timer_holds_current_text_witness :
  js "123" = js "123" ∧
  ∀ e' n',
    e' ∈ [mkEntry 2 400 (Debounce (js "123"))] →
    task e' = Debounce n' → e' = mkEntry 2 400 (Debounce (js "123")).
Proof.
  apply (debounce_timer_holds_current_text exampleLib (λ _, 0%float)
           [Change (js "12"); Elapse 100; Change (js "123")]
           (mkApp (js "123") initialWorld 100 3
              [mkEntry 2 400 (Debounce (js "123"))] 2)
           (mkEntry 2 400 (Debounce (js "123"))) (js "123")).
  - vm_compute. reflexivity.
  - simpl. left.
  - reflexivity.
Defined.

(** In every state the component reaches, while [isAnalyzing] is true
    (the loading indicator is shown) a callback of [analyzePhoneNumber]
    is pending and due no later than 800 ms from now, and running it
    sets [isAnalyzing] to false: the indicator never stays for good. *)
Theorem loading_indicator_has_pending_callback
    (lib : PhoneLib) (rand : nat → float) (evs : list Event) (a : App) :
  exec lib rand mounted evs = Some a →
  isAnalyzing (world a) = true →
  ∃ e r n,
    e ∈ timers a ∧
    task e = Callback (timeoutCallback lib r n) ∧
    due e ≤ now a + 800 ∧
    ∀ w, isAnalyzing (fst (timeoutCallback lib r n w)) = false.
Proof.
  intros Hex HA.
  pose proof (exec_ok lib rand evs _ _ (mounted_ok lib) Hex) as Hok.
  destruct (analyzing_pending lib a Hok HA) as (e & k & He & Ht).
  destruct (callback_shape lib a Hok e k He Ht) as (_ & Hdue & r & n & ->).
  exists e, r, n. repeat split; try done.
  intros w. by rewrite timeoutCallback_verdict.
Qed.

Lemma loading_indicator_has_pending_callback_witness :
  ∃ e r n,
    e ∈ [mkEntry 2 1100 (Callback (timeoutCallback exampleLib 0 (js "12345")))] ∧
    task e = Callback (timeoutCallback exampleLib r n) ∧
    due e ≤ 300 + 800 ∧
    ∀ w, isAnalyzing (fst (timeoutCallback exampleLib r n w)) = false.
Proof.
  apply (loading_indicator_has_pending_callback exampleLib (λ _, 0%float)
           [Change (js "12345"); Elapse 300; Fire]
           (mkApp (js "12345") (mkWorld None true []) 300 3
              [mkEntry 2 1100 (Callback (timeoutCallback exampleLib 0 (js "12345")))]
              1)).
  - vm_compute. reflexivity.
  - reflexivity.
Defined.

(** In every state the component reaches, once no timer is left and
    the field holds a non-blank text, the loading indicator is off and
    [phoneInfo] is the result of analysing that very text (for some
    value of [Math.random()]): results of earlier texts never survive. *)
Theorem settled_result_is_for_current_text
    (lib : PhoneLib) (rand : nat → float) (evs : list Event) (a : App) :
  exec lib rand mounted evs = Some a →
  timers a = [] →
  truthy (trim (phoneNumber a)) = true →
  renderLoading (world a) = [] ∧
  ∃ r, phoneInfo (world a) = resultOf lib r (phoneNumber a) initialWorld.
Proof.
  intros Hex Hnil Hb.
  pose proof (exec_ok lib rand evs _ _ (mounted_ok lib) Hex) as Hok.
  destruct (current_last lib a Hok) as [(l & e & r & Hl & _) | (_ & HA & r & Hr)];
    [by (intros e n He; rewrite Hnil in He; apply elem_of_nil in He) | done | |].
  - rewrite Hnil in Hl. by destruct l.
  - unfold renderLoading. rewrite HA. split; [done|].
    exists r. by rewrite resultOf_nonblank.
Qed.

Lemma settled_result_is_for_current_text_witness :
  renderLoading (mkWorld (resultOf exampleLib 0 (js "+44 20 7946 0958") initialWorld)
                   false []) = [] ∧
  ∃ r, resultOf exampleLib 0 (js "+44 20 7946 0958") initialWorld
       = resultOf exampleLib r (js "+44 20 7946 0958") initialWorld.
Proof.
  apply (settled_result_is_for_current_text exampleLib (λ _, 0%float)
           [Change (js "+91 98765 43210"); Elapse 300; Fire; Elapse 600;
            Change (js "+44 20 7946 0958"); Elapse 300; Fire; Fire; Elapse 800; Fire]
           (mkApp (js "+44 20 7946 0958")
              (mkWorld (resultOf exampleLib 0 (js "+44 20 7946 0958") initialWorld)
                 false [])
              2000 5 [] 3)).
  - vm_compute. reflexivity.
  - reflexivity.
  - reflexivity.
Defined.

(** * The analysis: scheduling, console, carrier draw *)



(** [console.error] receives exactly the error a call into the package
    threw: one entry is appended for an analysis in which a call throws,
    none otherwise, and the entries already there are kept. *)
Theorem console_receives_the_caught_error
    (lib : PhoneLib) (r : float) (number : jsstring) (w : World) :
  (truthy (trim number) = true →
   ∀ e, throwsInternally lib number e →
        console (fst (runAnalysis lib r number w)) = console w ++ [e]) ∧
  ((truthy (trim number) = false ∨ ∀ e, ¬ throwsInternally lib number e) →
   console (fst (runAnalysis lib r number w)) = console w).
Proof.
  split.
  - intros Hb e He. rewrite runAnalysis_nonblank by done. simpl. f_equal.
    unfold verdict.
    destruct He as [-> | [-> [-> | (p & -> & ->)]]]; done.
  - destruct (truthy (trim number)) eqn:Hb.
    + intros [?|Hno]; [done|]. rewrite runAnalysis_nonblank by done. simpl.
      unfold throwsInternally in Hno. unfold verdict.
      destruct (isValidPhoneNumber lib number) as [[|]|e] eqn:Hv; simpl;
        [| by rewrite app_nil_r | exfalso; apply (Hno e); by left].
      destruct (parsePhoneNumber lib number) as [[p|]|e] eqn:Hp; simpl;
        [| by rewrite app_nil_r | exfalso; apply (Hno e); right; split; [done | by left]].
      destruct (PhoneNumber.formatInternational p) as [s|e] eqn:Hf; simpl;
        [by rewrite app_nil_r|].
      exfalso. apply (Hno e). right. split; [done|]. right. eauto.
    + intros _. by rewrite runAnalysis_blank.
Qed.

Lemma console_receives_the_caught_error_witness :
  console (fst (runAnalysis throwingLib 0 (js "12345") initialWorld))
    = [] ++ [mkError (js "ParseError") (js "NOT_A_NUMBER")] ∧
  console (fst (runAnalysis exampleLib 0 (js "12345") initialWorld)) = [].
Proof.
  split.
  - apply (console_receives_the_caught_error throwingLib 0 (js "12345") initialWorld).
    + reflexivity.
    + left. reflexivity.
  - apply (console_receives_the_caught_error exampleLib 0 (js "12345") initialWorld).
    right. intros e [He | [He _]]; vm_compute in He; discriminate He.
Defined.

(** When the detected country is none of the seven keys of [carrierInfo]
    (or no country was detected), [Math.random()] has no influence: the
    analysis leaves the same world whatever value it would return. *)
Theorem analysis_deterministic_for_unlisted_country
    (lib : PhoneLib) (r1 r2 : float) (number : jsstring) (w : World) (info : PhoneInfo) :
  resultOf lib r1 number w = Some info →
  (∀ c, countryCode info = Some c → c ∉ carrierCountries) →
  runAnalysis lib r1 number w = runAnalysis lib r2 number w.
Proof.
  intros Hr Hc.
  destruct (truthy (trim number)) eqn:Hb; [|by rewrite !runAnalysis_blank].
  rewrite resultOf_nonblank in Hr by done. injection Hr as <-.
  rewrite !runAnalysis_nonblank by done.
  assert (Hnil : carriersOf (countryCode (fst (verdict lib r1 number))) = []).
  { destruct (countryCode _) as [c|] eqn:Hcc; [|done]. simpl.
    destruct (truthy c); [|done].
    destruct (carrierInfo !! c) as [l|] eqn:Hl; [|done].
    exfalso. apply (Hc c eq_refl), carrierInfo_keys. by eexists. }
  revert Hnil. unfold verdict.
  destruct (isValidPhoneNumber lib number) as [[|]|e]; simpl; try done.
  destruct (parsePhoneNumber lib number) as [[p|]|e]; simpl; try done.
  destruct (PhoneNumber.formatInternational p) as [s|e]; simpl; try done.
  unfold validInfo. simpl. by intros ->.
Qed.

Lemma analysis_deterministic_for_unlisted_country_witness :
  runAnalysis
    (constLib (PhoneNumber.mk (Some (js "JP")) (js "312345678")
                 (Normal (js "+81 3 1234 5678"))))
    0 (js "+81 3-1234-5678") initialWorld
  = runAnalysis
      (constLib (PhoneNumber.mk (Some (js "JP")) (js "312345678")
                   (Normal (js "+81 3 1234 5678"))))
      0.5 (js "+81 3-1234-5678") initialWorld.
Proof.
  apply (analysis_deterministic_for_unlisted_country _ 0 0.5 _ initialWorld
           (mkPhoneInfo true (Some (js "Japan")) (Some (js "JP")) (Some (js "Japan"))
              (Some (js "312345678")) (Some (js "+81 3 1234 5678")) None)).
  - vm_compute. reflexivity.
  - intros c [= <-] Hin. apply list_elem_of_In in Hin. simpl in Hin.
    repeat destruct Hin as [Hin|Hin]; try discriminate Hin. done.
Defined.

(** Every name in a country's carrier list can be drawn: one of the
    doubles 0, 0.25, 0.5 and 0.75, each a value [Math.random()] may
    return, selects it. *)
Theorem every_listed_carrier_can_be_drawn
    (c : jsstring) (l : list jsstring) (x : jsstring) :
  carrierInfo !! c = Some l →
  x ∈ l →
  ∃ r, r ∈ [0; 0.25; 0.5; 0.75]%float ∧
       (0 <=? r)%float = true ∧ (r <? 1)%float = true ∧
       randomCarrierOf r (carriersOf (Some c)) = Some x.
Proof.
  intros Hl Hx.
  assert (Ht : truthy c = true).
  { destruct c; [|done]. vm_compute in Hl. discriminate Hl. }
  assert (Hcs : carriersOf (Some c) = l)
    by (unfold carriersOf; by rewrite Ht, Hl).
  rewrite Hcs. clear Hcs Ht.
  apply elem_of_list_to_map_2 in Hl.
  apply list_elem_of_lookup_1 in Hx as [k Hk].
  assert (HF : Forall (λ p : jsstring * list jsstring,
                  ∀ k x, p.2 !! k = Some x →
                    ∃ r, r ∈ [0; 0.25; 0.5; 0.75]%float ∧
                         (0 <=? r)%float = true ∧ (r <? 1)%float = true ∧
                         randomCarrierOf r p.2 = Some x)
                carrierInfoEntries).
  { repeat constructor; simpl; intros [|[|[|[|j]]]] y Hy;
      try discriminate Hy; injection Hy as <-.
    all: first
      [ exists 0%float; split; [left|]; by vm_compute
      | exists 0.25%float; split; [right; left|]; by vm_compute
      | exists 0.5%float; split; [do 2 right; left|]; by vm_compute
      | exists 0.75%float; split; [do 3 right; left|]; by vm_compute ]. }
  rewrite Forall_forall in HF. exact (HF _ Hl k x Hk).
Qed.

Lemma every_listed_carrier_can_be_drawn_witness :
  ∃ r, r ∈ [0; 0.25; 0.5; 0.75]%float ∧
       (0 <=? r)%float = true ∧ (r <? 1)%float = true ∧
       randomCarrierOf r (carriersOf (Some (js "DE")))
         = Some (js "Telef" ++ [243%N] ++ js "nica").
Proof.
  apply (every_listed_carrier_can_be_drawn (js "DE")
           [js "Deutsche Telekom"; js "Vodafone"; js "Telef" ++ [243%N] ++ js "nica"]).
  - vm_compute. reflexivity.
  - right. right. left.
Defined.

(** * What the page shows *)

Lemma verdict_country lib r number :
  country (fst (verdict lib r number))
    = countryNameOf (countryCode (fst (verdict lib r number))) ∧
  region (fst (verdict lib r number))
    = countryNameOf (countryCode (fst (verdict lib r number))).
Proof. by verdict_cases lib number. Qed.

Lemma carrierCountries_named (c : jsstring) :
  c ∈ carrierCountries → is_Some (countryNames !! c).
Proof.
  revert c. apply Forall_forall.
  apply (bool_decide_unpack (Forall (λ c, is_Some (countryNames !! c)) carrierCountries)).
  by vm_compute.
Qed.

Lemma carrier_names_truthy (c : jsstring) (l : list jsstring) (x : jsstring) :
  carrierInfo !! c = Some l → x ∈ l → truthy x = true.
Proof.
  intros H Hx. apply elem_of_list_to_map_2 in H.
  assert (HF : Forall (λ p : jsstring * list jsstring,
                         Forall (λ y, truthy y = true) p.2)
                 carrierInfoEntries) by (repeat constructor).
  rewrite Forall_forall in HF. specialize (HF _ H). simpl in HF.
  rewrite Forall_forall in HF. by apply HF.
Qed.

(** Whenever a result has a carrier, its country is shown by its full
    name: the country code has an entry in [countryNames], and [country]
    and [region] both hold that entry, never the raw code. *)
Theorem carrier_comes_with_full_country_name
    (lib : PhoneLib) (r : float) (number : jsstring) (w : World)
    (info : PhoneInfo) (x : jsstring) :
  resultOf lib r number w = Some info →
  carrier info = Some x →
  ∃ c name,
    countryCode info = Some c ∧
    countryNames !! c = Some name ∧
    country info = Some name ∧
    region info = Some name.
Proof.
  intros Hr Hx.
  destruct (truthy (trim number)) eqn:Hb; [|by rewrite resultOf_blank in Hr].
  rewrite resultOf_nonblank in Hr by done. injection Hr as <-.
  rewrite verdict_carrier in Hx.
  destruct (verdict_country lib r number) as [-> ->].
  destruct (carriersOf_nonempty (countryCode (fst (verdict lib r number))))
    as (c & Hc & Hl).
  { intros Hnil. by rewrite Hnil in Hx. }
  assert (Hin : c ∈ carrierCountries) by (apply carrierInfo_keys; by eexists).
  destruct (carrierCountries_named c Hin) as [name Hname].
  exists c, name. rewrite Hc. split; [done|]. split; [done|].
  rewrite countryNameOf_default, Hname. simpl.
  assert (Ht : truthy c = true).
  { destruct c; [|done]. vm_compute in Hname. discriminate Hname. }
  by rewrite Ht.
Qed.

Lemma carrier_comes_with_full_country_name_witness :
  ∃ c name,
    Some (js "IN") = Some c ∧
    countryNames !! c = Some name ∧
    Some (js "India") = Some name ∧
    Some (js "India") = Some name.
Proof.
  apply (carrier_comes_with_full_country_name exampleLib 0.75
           (js "+91 98765 43210") initialWorld
           (mkPhoneInfo true (Some (js "India")) (Some (js "IN")) (Some (js "India"))
              (Some (js "9876543210")) (Some (js "+91 98765 43210"))
              (Some (js "BSNL")))
           (js "BSNL")).
  - vm_compute. reflexivity.
  - reflexivity.
Defined.

(** After the analysis of a non-blank input that the validator rejects,
    or during which a call into the package throws, the page shows
    "Invalid Phone Number" and nothing else of a result, and no loading
    indicator. *)
Theorem rejected_input_shows_invalid_only
    (lib : PhoneLib) (r : float) (number : jsstring) (w : World) :
  truthy (trim number) = true →
  (isValidPhoneNumber lib number = Normal false ∨
   ∃ e, throwsInternally lib number e) →
  renderResults (fst (runAnalysis lib r number w)) = [js "Invalid Phone Number"] ∧
  renderLoading (fst (runAnalysis lib r number w)) = [].
Proof.
  intros Hb Hrej. rewrite runAnalysis_nonblank by done.
  assert (Hv : fst (verdict lib r number) = invalidInfo).
  { unfold verdict.
    destruct Hrej as [-> | [e [-> | [-> [-> | (p & -> & ->)]]]]]; done. }
  unfold renderResults, renderLoading. simpl. by rewrite Hv.
Qed.

Lemma rejected_input_shows_invalid_only_witness :
  renderResults (fst (runAnalysis exampleLib 0 (js "+1 000-000-0000") initialWorld))
    = [js "Invalid Phone Number"] ∧
  renderLoading (fst (runAnalysis exampleLib 0 (js "+1 000-000-0000") initialWorld))
    = [].
Proof.
  apply (rejected_input_shows_invalid_only exampleLib 0 (js "+1 000-000-0000")
           initialWorld).
  - reflexivity.
  - left. vm_compute. reflexivity.
Defined.

(** After the analysis of a non-blank input that the validator accepts
    and the parser returns with country [c] and international format
    [s], the page shows "Valid Phone Number", the location with the
    country's name ([countryNames[c]], or [c] itself without an entry),
    the code in parentheses and the international format, and then the
    carrier with its note exactly when one was drawn. *)
Theorem valid_number_page
    (lib : PhoneLib) (r : float) (number : jsstring) (w : World)
    (p : PhoneNumber.t) (c s : jsstring) :
  truthy (trim number) = true →
  isValidPhoneNumber lib number = Normal true →
  parsePhoneNumber lib number = Normal (Some p) →
  PhoneNumber.country p = Some c → truthy c = true →
  PhoneNumber.formatInternational p = Normal s → truthy s = true →
  renderLoading (fst (runAnalysis lib r number w)) = [] ∧
  renderResults (fst (runAnalysis lib r number w)) =
    [js "Valid Phone Number"; js "Location"; default c (countryNames !! c);
     js "(" ++ c ++ js ")"; js "International: " ++ s]
    ++ match randomCarrierOf r (carriersOf (Some c)) with
       | Some x => [js "Carrier"; x; js "Estimated carrier information"]
       | None => []
       end.
Proof.
  intros Hb Hv Hp Hc Htc Hf Hts. rewrite runAnalysis_nonblank by done.
  split; [done|].
  assert (Hverd : fst (verdict lib r number) = validInfo r (Some p) (Some s))
    by (unfold verdict; by rewrite Hv, Hp, Hf).
  unfold renderResults, renderDetails. rewrite Hverd. unfold validInfo.
  cbn [fst phoneInfo isAnalyzing negb isValid country countryCode
       internationalFormat carrier mbind option_bind].
  rewrite Hc, countryNameOf_default, Htc.
  assert (Htn : truthy (default c (countryNames !! c)) = true).
  { destruct (countryNames !! c) as [nm|] eqn:Hn; simpl; [|done].
    by eapply countryNames_truthy. }
  unfold shown at 1 2 3. rewrite Htn, Htc, Hts.
  cbn [fmap list_fmap app].
  do 5 f_equal.
  destruct (randomCarrierOf r (carriersOf (Some c))) as [x|] eqn:Hx; [|done].
  assert (Htx : truthy x = true).
  { pose proof (randomCarrierOf_elem _ _ _ Hx) as Hin.
    destruct (carriersOf_nonempty (Some c)) as (c' & [= <-] & Hl).
    { intros Hnil. rewrite Hnil in Hin. by apply elem_of_nil in Hin. }
    by eapply carrier_names_truthy. }
  unfold shown. by rewrite Htx.
Qed.

Lemma valid_number_page_witness :
  renderLoading
    (fst (runAnalysis exampleLib 0 (js "+44 20 7946 0958") initialWorld)) = [] ∧
  renderResults
    (fst (runAnalysis exampleLib 0 (js "+44 20 7946 0958") initialWorld)) =
    [js "Valid Phone Number"; js "Location";
     default (js "GB") (countryNames !! js "GB");
     js "(" ++ js "GB" ++ js ")"; js "International: " ++ js "+44 20 7946 0958"]
    ++ match randomCarrierOf 0 (carriersOf (Some (js "GB"))) with
       | Some x => [js "Carrier"; x; js "Estimated carrier information"]
       | None => []
       end.
Proof.
  apply (valid_number_page exampleLib 0 (js "+44 20 7946 0958") initialWorld
           (PhoneNumber.mk (Some (js "GB")) (js "2079460958")
              (Normal (js "+44 20 7946 0958")))
           (js "GB") (js "+44 20 7946 0958")).
  - reflexivity.
  - vm_compute. reflexivity.
  - vm_compute. reflexivity.
  - reflexivity.
  - reflexivity.
  - reflexivity.
  - reflexivity.
Defined.


